(** * Jukebox: playback state machine, persistence and bounded lists

    A shallow embedding of the parts of the Jukebox sources that carry the
    playback state machine ([backend/app.py]), the Track entity and the JSON
    persistence adapter ([backend/jukebox_data.py]) and the history, favourites
    and search orchestration of the Qt front end ([jukebox_gui.py]).

    Python objects are dynamically typed, so the values that travel through
    the code (decoded JSON, the attributes of a [Track]) are modelled by one
    type [pyval]; exceptions are explicit results, and every function that
    reads or writes module-level or instance state is a computation in a
    small state-and-exception monad. *)

From Stdlib Require Import ZArith NArith List Bool String Ascii Lia.
Import ListNotations.
Open Scope Z_scope.
Set Warnings "-register-all".

(** ** Python values *)

Module Py.

(** A Python [str] is a sequence of Unicode code points. *)
Definition text := list N.

(** ASCII literals of the source, as code points. *)
Definition lit (s : string) : text :=
  map N_of_ascii (list_ascii_of_string s).

Fixpoint text_eqb (a b : text) : bool :=
  match a, b with
  | [], [] => true
  | x :: a', y :: b' => N.eqb x y && text_eqb a' b'
  | _, _ => false
  end.

(** The values [json.loads] produces, which are also the values a [Track]
    attribute may hold.  JSON numbers are integers here: floating-point
    payloads are outside the model. *)
Inductive pyval :=
| PNone
| PBool (b : bool)
| PInt (z : Z)
| PStr (s : text)
| PList (l : list pyval)
| PDict (d : list (text * pyval)).

(** [d.get(k)] on an insertion-ordered dict. *)
Fixpoint dict_lookup {A : Type} (d : list (text * A)) (k : text) : option A :=
  match d with
  | [] => None
  | (k', v) :: d' => if text_eqb k' k then Some v else dict_lookup d' k
  end.

(** [d.get(k, default)]. *)
Definition dict_get (d : list (text * pyval)) (k : text) (default : pyval) : pyval :=
  match dict_lookup d k with
  | Some v => v
  | None => default
  end.

(** Truth value testing: [None], [False], [0] and empty containers are
    false. *)
Definition truthy (v : pyval) : bool :=
  match v with
  | PNone => false
  | PBool b => b
  | PInt z => negb (z =? 0)
  | PStr s => match s with [] => false | _ => true end
  | PList l => match l with [] => false | _ => true end
  | PDict d => match d with [] => false | _ => true end
  end.

(** [a or b]. *)
Definition py_or (a b : pyval) : pyval :=
  if truthy a then a else b.

Definition is_none (v : pyval) : bool :=
  match v with PNone => true | _ => false end.

(** [a == b]: [bool] is a subtype of [int]; lists compare element-wise,
    dicts by key. *)
Fixpoint py_eq (a b : pyval) {struct a} : bool :=
  match a, b with
  | PNone, PNone => true
  | PBool x, PBool y => Bool.eqb x y
  | PBool x, PInt y => Z.b2z x =? y
  | PInt x, PBool y => x =? Z.b2z y
  | PInt x, PInt y => x =? y
  | PStr x, PStr y => text_eqb x y
  | PList x, PList y =>
      (fix all2 (x y : list pyval) {struct x} : bool :=
         match x, y with
         | [], [] => true
         | u :: x', v :: y' => py_eq u v && all2 x' y'
         | _, _ => false
         end) x y
  | PDict x, PDict y =>
      (List.length x =? List.length y)%nat &&
      (fix sub (x : list (text * pyval)) {struct x} : bool :=
         match x with
         | [] => true
         | (k, u) :: x' =>
             match dict_lookup y k with
             | Some v => py_eq u v
             | None => false
             end && sub x'
         end) x
  | _, _ => false
  end.

(** [str.isspace] on one code point (the Unicode white-space table of
    CPython). *)
Definition isspace (c : N) : bool :=
  ((9 <=? c) && (c <=? 13) || (28 <=? c) && (c <=? 32)
   || (c =? 133) || (c =? 160) || (c =? 5760)
   || (8192 <=? c) && (c <=? 8202)
   || (c =? 8232) || (c =? 8233) || (c =? 8239) || (c =? 8287)
   || (c =? 12288))%N.

Fixpoint lstrip (s : text) : text :=
  match s with
  | c :: s' => if isspace c then lstrip s' else s
  | [] => []
  end.

(** [s.strip()]. *)
Definition strip (s : text) : text :=
  rev (lstrip (rev (lstrip s))).

Fixpoint is_prefix (p s : text) : bool :=
  match p, s with
  | [], _ => true
  | x :: p', y :: s' => N.eqb x y && is_prefix p' s'
  | _ :: _, [] => false
  end.

(** [sub in s]. *)
Fixpoint contains (sub s : text) : bool :=
  is_prefix sub s
  || match s with
     | [] => false
     | _ :: s' => contains sub s'
     end.

(** ** Exceptions and the state-and-exception monad *)

Inductive exn :=
| TypeError | AttributeError | IndexError | ValueError
| OSError | JSONDecodeError | UnicodeDecodeError | RuntimeError.

Inductive outcome (A : Type) :=
| Returned (a : A)
| Raised (e : exn).
Arguments Returned {A} a.
Arguments Raised {A} e.

Definition is_JSONDecodeError (e : exn) : bool :=
  match e with JSONDecodeError => true | _ => false end.

(** A computation over a state [S]: it returns or raises, and leaves a
    state behind in both cases. *)
Definition M (S A : Type) := S -> outcome A * S.

Definition ret {S A} (a : A) : M S A := fun s => (Returned a, s).

Definition raise {S A} (e : exn) : M S A := fun s => (Raised e, s).

Definition bind {S A B} (m : M S A) (k : A -> M S B) : M S B :=
  fun s =>
    match m s with
    | (Returned a, s') => k a s'
    | (Raised e, s') => (Raised e, s')
    end.

(** [try: body / except Exception as e: handler e]. *)
Definition try_except {S A} (body : M S A) (handler : exn -> M S A) : M S A :=
  fun s =>
    match body s with
    | (Returned a, s') => (Returned a, s')
    | (Raised e, s') => handler e s'
    end.

Definition get {S} : M S S := fun s => (Returned s, s).

Definition modify {S} (f : S -> S) : M S unit := fun s => (Returned tt, f s).

(** A pure computation that may raise, run inside a stateful one. *)
Definition lift {S A} (o : outcome A) : M S A := fun s => (o, s).

(** [x.startswith(p)]: only [str] has the method among the values of the
    model. *)
Definition startswith (v : pyval) (p : text) : outcome bool :=
  match v with
  | PStr s => Returned (is_prefix p s)
  | _ => Raised AttributeError
  end.

(** [len(l)]. *)
Definition len {A} (l : list A) : Z := Z.of_nat (List.length l).

(** [l[i]]: a negative index counts from the end; out of range raises
    [IndexError]. *)
Definition index {A} (l : list A) (i : Z) : outcome A :=
  let j := if i <? 0 then len l + i else i in
  if j <? 0 then Raised IndexError
  else match nth_error l (Z.to_nat j) with
       | Some a => Returned a
       | None => Raised IndexError
       end.

(** Sequencing and [try]/[except] for code that touches no state. *)
Definition obind {A B} (o : outcome A) (k : A -> outcome B) : outcome B :=
  match o with
  | Returned a => k a
  | Raised e => Raised e
  end.

Definition catch {A} (o : outcome A) (handler : exn -> outcome A) : outcome A :=
  match o with
  | Returned a => Returned a
  | Raised e => handler e
  end.

(** [v * n] for an [int] n: numbers multiply, sequences repeat, anything
    else is a [TypeError]. *)
Definition py_mul (v : pyval) (n : Z) : outcome pyval :=
  match v with
  | PInt z => Returned (PInt (z * n))
  | PBool b => Returned (PInt (Z.b2z b * n))
  | PStr s => Returned (PStr (List.concat (repeat s (Z.to_nat n))))
  | PList l => Returned (PList (List.concat (repeat l (Z.to_nat n))))
  | PNone | PDict _ => Raised TypeError
  end.

(** [v.get(k, default)]: a method of [dict] only. *)
Definition py_get (v : pyval) (k : text) (default : pyval) : outcome pyval :=
  match v with
  | PDict d => Returned (dict_get d k default)
  | _ => Raised AttributeError
  end.

End Py.

Import Py.

Declare Scope py_scope.
Delimit Scope py_scope with py.
Notation "x <- m ;; k" := (bind m (fun x => k))
  (at level 61, m at next level, right associativity) : py_scope.
Notation "m ;; k" := (bind m (fun _ => k))
  (at level 61, right associativity) : py_scope.
Notation "'let!' x ':=' o 'in' k" := (obind o (fun x => k))
  (at level 10, x name, o at level 100, k at level 200) : py_scope.
Open Scope py_scope.

(** ** [backend/jukebox_data.py]: the Track entity and the JSON helpers *)

Module Data.

(** What the module asks of the interpreter and of the operating system:
    [pathlib] queries (a query that raises is [Raised]), [str()] of a
    value that is not a [str], [str.lower], [json.loads], and the files of
    [DATA_DIR]: [data_file name] is [Raised e] when [fp.exists()] itself
    raises [e] (a name too long for the file system, a directory that
    cannot be searched), [Returned None] when the file does not exist,
    and otherwise holds what [read_text] gives. *)
Class Platform := {
  path_is_file : text -> outcome bool;
  path_exists : text -> outcome bool;
  path_resolve : text -> outcome text;
  path_stem : text -> text;
  path_suffix : text -> text;
  str_lower : text -> text;
  py_repr : pyval -> text;
  json_loads : text -> outcome pyval;
  data_file : text -> outcome (option (outcome text))
}.

Definition AUDIO_EXTS : list text :=
  [lit ".mp3"; lit ".flac"; lit ".wav"; lit ".ogg"; lit ".m4a";
   lit ".webm"; lit ".opus"].

Definition MAX_HISTORY_SIZE : Z := 50.

(** An instance of [class Track]; every attribute holds whatever value
    was stored in it. *)
Record Track := mkTrack {
  url : pyval;
  title : pyval;
  thumbnail_url : pyval;
  duration_sec : pyval;
  is_local : pyval;
  webpage_url : pyval
}.

Definition set_url (v : pyval) (t : Track) : Track :=
  mkTrack v (title t) (thumbnail_url t) (duration_sec t) (is_local t) (webpage_url t).
Definition set_title (v : pyval) (t : Track) : Track :=
  mkTrack (url t) v (thumbnail_url t) (duration_sec t) (is_local t) (webpage_url t).
Definition set_is_local (v : pyval) (t : Track) : Track :=
  mkTrack (url t) (title t) (thumbnail_url t) (duration_sec t) v (webpage_url t).
Definition set_webpage_url (v : pyval) (t : Track) : Track :=
  mkTrack (url t) (title t) (thumbnail_url t) (duration_sec t) (is_local t) v.

(** [Track.__init__]: a local track without a page URL gets its path as
    page URL. *)
Definition Track_init (url title thumbnail_url duration_sec is_local webpage_url : pyval)
  : Track :=
  let self := mkTrack url title thumbnail_url duration_sec is_local webpage_url in
  if truthy is_local && (is_none webpage_url || negb (truthy webpage_url))
  then set_webpage_url url self
  else self.

(** A track whose duration is an integer, as the constructor's default
    and the tracks built from search results are. *)
Definition has_int_duration (t : Track) : Prop :=
  exists z, duration_sec t = PInt z.

(** [Track.to_dict]. *)
Definition to_dict (self : Track) : list (text * pyval) :=
  [ (lit "url", url self);
    (lit "title", title self);
    (lit "thumbnail_url", thumbnail_url self);
    (lit "duration_sec", duration_sec self);
    (lit "is_local", is_local self);
    (lit "webpage_url", webpage_url self) ].

(** A Python object handed to the list-handling code: a [Track] instance
    or a plain value. *)
Inductive pyobj :=
| OTrack (t : Track)
| OVal (v : pyval).

(** [Track(None, "Invalid Track Data")], the dummy track of
    [Track.from_dict]. *)
Definition invalid_track : Track :=
  Track_init PNone (PStr (lit "Invalid Track Data")) PNone (PInt 0) (PBool false) PNone.

Definition isinstance_dict_str_list (data : pyval) : bool :=
  match data with
  | PDict _ | PStr _ | PList _ => true
  | _ => false
  end.

(** The migration logic of [Track.from_dict]: the [if]/[elif] chain that
    builds [migrated_data] and [identifier_url], [None] for its final
    [else]. *)
Definition migration (data : pyval) : option (list (text * pyval) * pyval) :=
  match data with
  | PStr _ =>
      Some ([ (lit "title", data); (lit "webpage_url", data); (lit "url", data) ], data)
  | PList l =>
      if 5 <=? len l then
        match l with
        | stream_url :: title :: thumbnail_url :: d3 :: webpage_url_old :: _ =>
            let duration_sec := if negb (is_none d3) then d3 else PInt 0 in
            Some ([ (lit "url", stream_url);
                    (lit "title", title);
                    (lit "thumbnail_url", thumbnail_url);
                    (lit "duration_sec", duration_sec);
                    (lit "webpage_url", webpage_url_old) ],
                  webpage_url_old)
        | _ => None
        end
      else None
  | PDict migrated_data =>
      Some (migrated_data,
            dict_get migrated_data (lit "webpage_url")
              (dict_get migrated_data (lit "url") PNone))
  | _ => None
  end.

Section WithPlatform.
Context {P : Platform}.

(** [str(v)]. *)
Definition py_str (v : pyval) : text :=
  match v with
  | PStr s => s
  | _ => py_repr v
  end.

(** The title heuristic: a title equal to the identifier is replaced by
    the file stem when the locator is an existing file
    ([except Exception: pass]). *)
Definition improve_title (identifier_url : pyval) (track : Track) : Track :=
  if py_eq (title track) identifier_url && truthy (url track) then
    let p := py_str (url track) in
    match path_is_file p with
    | Returned true => set_title (PStr (path_stem p)) track
    | Returned false => track
    | Raised _ => track
    end
  else track.

Definition fallback_title (track : Track) : Track :=
  if negb (truthy (title track))
  then set_title (PStr (lit "Titolo Sconosciuto")) track
  else track.

(** The locality heuristic.  [is_local] is assigned before [resolve()]
    is called, so a failing [resolve()] leaves a local track with its
    locator as it was; both [except] clauses go on with the track as it
    is. *)
Definition infer_local (migrated_data : list (text * pyval)) (track : Track) : Track :=
  if negb (truthy (dict_get migrated_data (lit "is_local") PNone)) then
    let potential_path_str := url track in
    if truthy potential_path_str then
      let potential_path := py_str potential_path_str in
      if existsb (text_eqb (str_lower (path_suffix potential_path))) AUDIO_EXTS then
        match path_exists potential_path with
        | Returned true =>
            let track := set_is_local (PBool true) track in
            match path_resolve potential_path with
            | Returned resolved => set_url (PStr resolved) track
            | Raised _ => track
            end
        | Returned false => track
        | Raised _ => track
        end
      else track
    else track
  else track.

(** The final consistency step for [webpage_url]; [startswith] on a
    locator that is not a [str] raises. *)
Definition backfill_webpage_url (track : Track) : outcome Track :=
  if truthy (is_local track)
     && (is_none (webpage_url track) || negb (truthy (webpage_url track)))
  then Returned (set_webpage_url (url track) track)
  else if negb (truthy (is_local track)) && is_none (webpage_url track)
          && truthy (url track)
  then let! http := startswith (url track) (lit "http") in
       Returned (if (http : bool) then set_webpage_url (url track) track else track)
  else Returned track.

(** [Track.from_dict]. *)
Definition from_dict (data : pyval) : outcome Track :=
  if negb (isinstance_dict_str_list data) then Returned invalid_track
  else
    match migration data with
    | None => Returned invalid_track
    | Some (migrated_data, identifier_url) =>
        let track :=
          Track_init
            (dict_get migrated_data (lit "url") PNone)
            (dict_get migrated_data (lit "title")
               (py_or identifier_url (PStr (lit "Titolo Sconosciuto"))))
            (dict_get migrated_data (lit "thumbnail_url") PNone)
            (dict_get migrated_data (lit "duration_sec") (PInt 0))
            (dict_get migrated_data (lit "is_local") (PBool false))
            (dict_get migrated_data (lit "webpage_url") PNone) in
        let track := improve_title identifier_url track in
        let track := fallback_title track in
        let track := infer_local migrated_data track in
        backfill_webpage_url track
    end.

(** The conversion loop of [load_json]: an item is kept when the
    converted object has a title or a locator; an item whose conversion
    raises is reported and left out. *)
Fixpoint convert_items (item_from_dict : pyval -> outcome Track) (raw_data : list pyval)
  : list Track :=
  match raw_data with
  | [] => []
  | item_data :: rest =>
      match item_from_dict item_data with
      | Returned item =>
          if truthy (py_or (title item) (url item))
          then item :: convert_items item_from_dict rest
          else convert_items item_from_dict rest
      | Raised _ => convert_items item_from_dict rest
      end
  end.

(** [load_json(name, item_class)].  [item_class] is [Some f] when a class
    with a [from_dict] was passed, [f] being that method.  The existence
    test comes before the [try]: what it raises leaves the function. *)
Definition load_json (name : text) (item_class : option (pyval -> outcome Track))
  : outcome (list pyobj) :=
  let! found := data_file name in
  match found with
  | None => Returned []
  | Some read_text =>
      catch
        (let! text := read_text in
         let content := strip text in
         match content with
         | [] => Returned []
         | _ =>
             let! raw_data := json_loads content in
             let recovered :=
               match raw_data with
               | PList l => Some l
               | PDict [(key, PList l)] => Some l
               | _ => None
               end in
             match recovered with
             | None => Returned []
             | Some raw_data =>
                 match item_class with
                 | Some item_from_dict =>
                     Returned (map OTrack (convert_items item_from_dict raw_data))
                 | None => Returned (map OVal raw_data)
                 end
             end
         end)
        (fun e => if is_JSONDecodeError e then Returned [] else Returned [])
  end.

(** The file of a named list cannot be used: it does not exist, cannot be
    read, is empty once stripped, or [json.loads] raises on it. *)
Definition absent_empty_or_malformed (name : text) : Prop :=
  match data_file name with
  | Raised _ => False
  | Returned None => True
  | Returned (Some (Raised _)) => True
  | Returned (Some (Returned content)) =>
      strip content = [] \/ exists e, json_loads (strip content) = Raised e
  end.

(** The elements [load_json] keeps of a decoded array: those whose
    conversion returns an object with a title or a locator, in order. *)
Definition kept (item_from_dict : pyval -> outcome Track) (raw_data : list pyval)
  : list Track :=
  flat_map (fun item_data =>
              match item_from_dict item_data with
              | Returned item =>
                  if truthy (title item) || truthy (url item) then [item] else []
              | Raised _ => []
              end) raw_data.

End WithPlatform.

(** *** Writing the lists *)

(** The platform after [fp.write_text(content)] on the file [name] of
    [DATA_DIR]. *)
Definition write_text (P : Platform) (name content : text) : Platform := {|
  path_is_file := @path_is_file P;
  path_exists := @path_exists P;
  path_resolve := @path_resolve P;
  path_stem := @path_stem P;
  path_suffix := @path_suffix P;
  str_lower := @str_lower P;
  py_repr := @py_repr P;
  json_loads := @json_loads P;
  data_file := fun n =>
    if text_eqb n name then Returned (Some (Returned content)) else @data_file P n
|}.

(** The list [save_json] serializes: [item.to_dict()] for a [Track], the
    item itself otherwise. *)
Definition data_to_save (data_list : list pyobj) : list pyval :=
  map (fun item => match item with
                   | OTrack t => PDict (to_dict t)
                   | OVal v => v
                   end) data_list.

(** [save_json(name, data_list)]: the platform it leaves.  [json_dumps] is
    [json.dumps(_, indent=2)]; [writable] tells whether the directory can
    be made and the file opened for writing.  An exception of either is
    reported and swallowed, and the file is as before. *)
Definition save_json (json_dumps : pyval -> outcome text) (writable : text -> bool)
  (name : text) (data_list : list pyobj) (P : Platform) : Platform :=
  match
    catch (let! content := json_dumps (PList (data_to_save data_list)) in
           if writable name then Returned (write_text P name content)
           else Raised OSError)
          (fun _ => Returned P)
  with
  | Returned P' => P'
  | Raised _ => P
  end.

(** A locator the final [startswith] of [Track.from_dict] can take: a
    [str], or a false value. *)
Definition str_or_false (v : pyval) : bool :=
  match v with
  | PStr _ => true
  | _ => negb (truthy v)
  end.

End Data.

(** ** [backend/app.py]: the playback state machine *)

Module App.
Import Data.

(** [vlc.State]. *)
Inductive State :=
| NothingSpecial | Opening | Buffering | Playing | Paused | Stopped | Ended | Error.

Definition State_eqb (a b : State) : bool :=
  match a, b with
  | NothingSpecial, NothingSpecial | Opening, Opening | Buffering, Buffering
  | Playing, Playing | Paused, Paused | Stopped, Stopped | Ended, Ended
  | Error, Error => true
  | _, _ => false
  end.

(** The media engine, an external collaborator: the calls of the
    python-vlc binding the module makes.  The calls on the player return
    status codes; [media_new], which receives a locator of any type, is
    the call that may raise (or return no media). *)
Class Vlc := {
  player_t : Type;
  media_t : Type;
  vlc_is_playing : player_t -> bool;
  vlc_get_state : player_t -> State;
  vlc_get_time : player_t -> Z;
  vlc_get_media : player_t -> option media_t;
  vlc_get_length : player_t -> Z;
  vlc_stop : player_t -> player_t;
  vlc_play : player_t -> Z * player_t;
  vlc_set_media : media_t -> player_t -> player_t;
  vlc_media_new : pyval -> outcome (option media_t)
}.

(** The values of [current_media_type]. *)
Inductive MediaType := MT_none | MT_playlist | MT_webradio.

Definition MediaType_eqb (a b : MediaType) : bool :=
  match a, b with
  | MT_none, MT_none | MT_playlist, MT_playlist | MT_webradio, MT_webradio => true
  | _, _ => false
  end.

Section WithVlc.
Context {V : Vlc}.

(** The module-level state: [player] is [None] when the engine could not
    be created; [current_radio_info] is [None] or a dict. *)
Record Globals := mkGlobals {
  player : option player_t;
  current_playlist : list Track;
  current_track_index : Z;
  is_playing : bool;
  current_volume : Z;
  current_media_type : MediaType;
  current_radio_info : pyval
}.

Definition set_player (v : option player_t) (g : Globals) : Globals :=
  mkGlobals v (current_playlist g) (current_track_index g) (is_playing g)
    (current_volume g) (current_media_type g) (current_radio_info g).
Definition set_current_track_index (v : Z) (g : Globals) : Globals :=
  mkGlobals (player g) (current_playlist g) v (is_playing g)
    (current_volume g) (current_media_type g) (current_radio_info g).
Definition set_is_playing (v : bool) (g : Globals) : Globals :=
  mkGlobals (player g) (current_playlist g) (current_track_index g) v
    (current_volume g) (current_media_type g) (current_radio_info g).
Definition set_current_media_type (v : MediaType) (g : Globals) : Globals :=
  mkGlobals (player g) (current_playlist g) (current_track_index g) (is_playing g)
    (current_volume g) v (current_radio_info g).
Definition set_current_radio_info (v : pyval) (g : Globals) : Globals :=
  mkGlobals (player g) (current_playlist g) (current_track_index g) (is_playing g)
    (current_volume g) (current_media_type g) v.

(** A query on [player]; on [None] the attribute access raises. *)
Definition player_query {A} (f : player_t -> A) : M Globals A :=
  fun g =>
    match player g with
    | Some p => (Returned (f p), g)
    | None => (Raised AttributeError, g)
    end.

(** A call on [player] that changes the engine. *)
Definition player_call {A} (f : player_t -> A * player_t) : M Globals A :=
  fun g =>
    match player g with
    | Some p => let (a, p') := f p in (Returned a, set_player (Some p') g)
    | None => (Raised AttributeError, g)
    end.

Definition player_stop : M Globals unit :=
  player_call (fun p => (tt, vlc_stop p)).

(** [if player: player.stop()]. *)
Definition stop_if_player : M Globals unit :=
  g <- get ;;
  match player g with
  | Some _ => player_stop
  | None => ret tt
  end.

(** The dict [_get_player_status] returns; [station_info] is [None] when
    the key is absent. *)
Record Status := mkStatus {
  media_type : MediaType;
  station_info : option pyval;
  status_current_track_index : Z;
  status_is_playing : bool;
  actually_playing_vlc : bool;
  current_track : option (list (text * pyval));
  current_time_ms : Z;
  duration_ms : pyval;
  volume : Z;
  playlist_length : Z
}.

(** [_get_player_status]. *)
Definition _get_player_status : M Globals Status :=
  g <- get ;;
  times <-
    match player g with
    | Some p =>
        let t := vlc_get_time p in
        let current_time_ms := if negb (t =? 0) then t else 0 in
        let actual_is_playing := vlc_is_playing p in
        (if is_playing g && negb actual_is_playing
         then modify (set_is_playing false)
         else ret tt) ;;
        ret (current_time_ms, actual_is_playing)
    | None => ret (0, false)
    end ;;
  let (current_time_ms, actual_is_playing) := times : Z * bool in
  g <- get ;;
  head <-
    (if MediaType_eqb (current_media_type g) MT_webradio
        && truthy (current_radio_info g)
     then
       name <- lift (py_get (current_radio_info g) (lit "name")
                       (PStr (lit "Web Radio"))) ;;
       thumb <- lift (py_get (current_radio_info g) (lit "thumbnail_url") PNone) ;;
       stream <- lift (py_get (current_radio_info g) (lit "url_stream") PNone) ;;
       let track_dict :=
         [ (lit "title", name);
           (lit "artist", PStr (lit "Web Radio Stream"));
           (lit "album", PStr []);
           (lit "thumbnail_url", thumb);
           (lit "is_webradio", PBool true);
           (lit "is_local", PBool false);
           (lit "duration_sec", PInt 0);
           (lit "webpage_url", stream) ] in
       ret (Some track_dict, PInt 0,
            (MT_webradio, Some (current_radio_info g), -1))
     else if MediaType_eqb (current_media_type g) MT_playlist
             && (0 <=? current_track_index g)
             && (current_track_index g <? len (current_playlist g))
     then
       track <- lift (index (current_playlist g) (current_track_index g)) ;;
       let track_dict := to_dict track in
       duration_ms <-
         match player g with
         | Some p =>
             match vlc_get_media p with
             | Some _ =>
                 let media_duration := vlc_get_length p in
                 if 0 <? media_duration then ret (PInt media_duration)
                 else lift (py_mul (dict_get track_dict (lit "duration_sec") (PInt 0))
                              1000)
             | None => ret (PInt 0)
             end
         | None => ret (PInt 0)
         end ;;
       ret (Some track_dict, duration_ms,
            (MT_playlist, None, current_track_index g))
     else
       ret (None, PInt 0, (current_media_type g, None, -1))) ;;
  let '(track_dict, duration_ms, (mt, station, idx)) :=
    head : option (list (text * pyval)) * pyval * (MediaType * option pyval * Z) in
  g <- get ;;
  ret (mkStatus mt station idx (is_playing g) actual_is_playing track_dict
         current_time_ms duration_ms (current_volume g) (len (current_playlist g))).

(** [0 <= index < len(current_playlist)]. *)
Definition in_bounds (index : Z) (g : Globals) : bool :=
  (0 <=? index) && (index <? len (current_playlist g)).

(** The media-loading block of [_play_track_at_index], from
    [media_path = track_to_play.url] on. *)
Definition load_and_play (index : Z) (track_to_play : Track) : M Globals bool :=
  let media_path := url track_to_play in
  if negb (truthy media_path) then
    modify (set_is_playing false) ;;
    ret false
  else
    try_except
      (media <- lift (vlc_media_new media_path) ;;
       match media with
       | None =>
           modify (set_is_playing false) ;;
           ret false
       | Some media =>
           player_call (fun p => (tt, vlc_set_media media p)) ;;
           play_result <- player_call vlc_play ;;
           if play_result =? -1 then
             modify (set_is_playing false) ;;
             ret false
           else
             modify (set_current_track_index index) ;;
             modify (set_is_playing true) ;;
             ret true
       end)
      (fun _ =>
         modify (set_is_playing false) ;;
         ret false).

(** [_play_track_at_index(index, from_event=False)]; the body does not
    read [from_event]. *)
Definition _play_track_at_index (index : Z) : M Globals bool :=
  g <- get ;;
  match player g with
  | None =>
      modify (set_is_playing false) ;;
      ret false
  | Some _ =>
      modify (set_current_media_type MT_playlist) ;;
      modify (set_current_radio_info PNone) ;;
      g <- get ;;
      if negb ((0 <=? index) && (index <? len (current_playlist g))) then
        stop_if_player ;;
        modify (set_current_track_index (-1)) ;;
        modify (set_is_playing false) ;;
        ret false
      else
        track_to_play <- lift (Py.index (current_playlist g) index) ;;
        playing <- player_query vlc_is_playing ;;
        state <- player_query vlc_get_state ;;
        if playing || State_eqb state Paused then
          g <- get ;;
          if (current_track_index g =? index) && State_eqb state Paused
             && MediaType_eqb (current_media_type g) MT_playlist
          then
            play_result <- player_call vlc_play ;;
            if negb (play_result =? -1) then
              modify (set_is_playing true) ;;
              ret true
            else
              modify (set_is_playing false) ;;
              ret false
          else
            player_stop ;;
            load_and_play index track_to_play
        else
          load_and_play index track_to_play
  end.

(** [_play_next_track]. *)
Definition _play_next_track (from_event : bool) : M Globals bool :=
  g <- get ;;
  if negb (MediaType_eqb (current_media_type g) MT_playlist) then
    stop_if_player ;;
    modify (set_is_playing false) ;;
    ret false
  else
    match current_playlist g with
    | [] =>
        modify (set_is_playing false) ;;
        ret false
    | _ =>
        let new_index := current_track_index g + 1 in
        let new_index :=
          if len (current_playlist g) <=? new_index then 0 else new_index in
        _play_track_at_index new_index
    end.

(** [_handle_end_reached_event]. *)
Definition _handle_end_reached_event : M Globals unit :=
  g <- get ;;
  if MediaType_eqb (current_media_type g) MT_webradio then
    ret tt
  else if MediaType_eqb (current_media_type g) MT_playlist then
    _play_next_track true ;;
    ret tt
  else
    ret tt.

End WithVlc.

(** *** Previous track and the HTTP routes *)

(** The further calls of the binding the routes make: [can_pause],
    [pause], [audio_set_volume], and [media_new] with an option string. *)
Class Controls (V : Vlc) := {
  vlc_can_pause : player_t -> bool;
  vlc_pause : player_t -> player_t;
  vlc_audio_set_volume : Z -> player_t -> player_t;
  vlc_media_new_with : text -> text -> outcome (option media_t)
}.

(** The error bodies of the routes, by what they say. *)
Inductive api_error :=
| MissingNameOrUrl
| EmptyNameOrUrl
| PlayerNotInitialized
| MediaNotCreated
| WebRadioPlayFailed
| WebRadioException
| InvalidTrackIndex
| TrackIndexNotInteger
| VolumeOutOfRange
| VolumeNotInteger
| MissingVolume.

(** What a route answers: the status as JSON, or an error body with its
    HTTP code. *)
Inductive Response {V : Vlc} :=
| Json (st : Status)
| ErrorJson (e : api_error) (code : Z).

(** [k in data] for a [str] k: a key of a dict, an element of a list, a
    substring of a str; anything else is not iterable. *)
Definition py_in (k : text) (data : pyval) : outcome bool :=
  match data with
  | PDict d => Returned (match dict_lookup d k with Some _ => true | None => false end)
  | PList l => Returned (existsb (fun item => py_eq item (PStr k)) l)
  | PStr s => Returned (contains k s)
  | _ => Raised TypeError
  end.

(** [data[k]] for a [str] k, where [k in data] holds: the value of the key
    of a dict; a list or a str takes no [str] index. *)
Definition item_of (k : text) (data : pyval) : outcome pyval :=
  match data with
  | PDict d => Returned (dict_get d k PNone)
  | _ => Raised TypeError
  end.

(** [v.strip()]: a method of [str]. *)
Definition py_strip (v : pyval) : outcome text :=
  match v with
  | PStr s => Returned (strip s)
  | _ => Raised AttributeError
  end.

Section Routes.
Context {V : Vlc} {K : Controls V}.

(** [int(s)] for a [str]: [None] when the text is no integer literal
    ([ValueError]). *)
Variable int_of_str : text -> option Z.

(** [int(v)] on the values of [pyval] (which has no numbers with a
    fraction): an [int] is itself, a [bool] is 0 or 1, a [str] is parsed,
    anything else is a [TypeError]. *)
Definition py_int (v : pyval) : outcome Z :=
  match v with
  | PInt z => Returned z
  | PBool b => Returned (Z.b2z b)
  | PStr s => match int_of_str s with
              | Some z => Returned z
              | None => Raised ValueError
              end
  | _ => Raised TypeError
  end.

Definition set_current_volume (v : Z) (g : Globals) : Globals :=
  mkGlobals (player g) (current_playlist g) (current_track_index g) (is_playing g)
    v (current_media_type g) (current_radio_info g).

(** [_play_previous_track]. *)
Definition _play_previous_track : M Globals bool :=
  g <- get ;;
  if negb (MediaType_eqb (current_media_type g) MT_playlist) then
    stop_if_player ;;
    modify (set_is_playing false) ;;
    ret false
  else
    match current_playlist g with
    | [] =>
        modify (set_is_playing false) ;;
        ret false
    | _ =>
        let new_index := current_track_index g - 1 in
        let new_index :=
          if new_index <? 0
          then match current_playlist g with
               | [] => -1
               | _ => len (current_playlist g) - 1
               end
          else new_index in
        if new_index =? -1 then ret false
        else _play_track_at_index new_index
    end.

(** [jsonify(_get_player_status())]. *)
Definition status_response : M Globals Response :=
  st <- _get_player_status ;;
  ret (Json st).

(** [player_next], the route [/api/player/next]. *)
Definition player_next : M Globals Response :=
  _play_next_track false ;;
  status_response.

(** [player_previous], the route [/api/player/previous]. *)
Definition player_previous : M Globals Response :=
  _play_previous_track ;;
  status_response.

(** [player_pause], the route [/api/player/pause]. *)
Definition player_pause : M Globals Response :=
  g <- get ;;
  match player g with
  | Some p =>
      if vlc_can_pause p then
        player_call (fun p => (tt, vlc_pause p)) ;;
        modify (set_is_playing false)
      else ret tt
  | None => ret tt
  end ;;
  status_response.

(** [try: body except ValueError: return error, 400]; any other exception
    leaves the route.  The body answers [Some r] where it returns [r]
    inside the [try] and [None] where it runs to the end of the [try]. *)
Definition except_ValueError (body : M Globals (option Response)) (e : api_error)
  : M Globals (option Response) :=
  try_except body
    (fun exc => match exc with
                | ValueError => ret (Some (ErrorJson e 400))
                | _ => raise exc
                end).

(** The end of a route whose [try] block may have returned: the answer of
    the block, or the [return jsonify(_get_player_status())] after it. *)
Definition or_status (returned : option Response) : M Globals Response :=
  match returned with
  | Some r => ret r
  | None => status_response
  end.

(** The state the volume route reads the status in, once it accepted
    [vol]: [player.audio_set_volume(vol)] where there is a player, then
    [current_volume = vol]. *)
Definition volume_set (vol : Z) (g : Globals) : Globals :=
  set_current_volume vol
    match player g with
    | Some p => set_player (Some (vlc_audio_set_volume vol p)) g
    | None => g
    end.

(** [player_volume], the route [/api/player/volume]; [data] is
    [request.json]. *)
Definition player_volume (data : pyval) : M Globals Response :=
  has_volume <- (if truthy data then lift (py_in (lit "volume") data) else ret false) ;;
  if (has_volume : bool) then
    returned <-
      except_ValueError
        (raw <- lift (item_of (lit "volume") data) ;;
         vol <- lift (py_int raw) ;;
         if (0 <=? vol) && (vol <=? 200) then
           g <- get ;;
           match player g with
           | Some _ => player_call (fun p => (tt, vlc_audio_set_volume vol p))
           | None => ret tt
           end ;;
           modify (set_current_volume vol) ;;
           ret None
         else ret (Some (ErrorJson VolumeOutOfRange 400)))
        VolumeNotInteger ;;
    or_status returned
  else ret (ErrorJson MissingVolume 400).

(** The branch of [player_play] for a request without [track_index]:
    resume a paused player, replay the current (or last played) track of a
    stopped one, or start with the first track. *)
Definition play_without_index : M Globals Response :=
  g <- get ;;
  match player g with
  | None => ret (ErrorJson PlayerNotInitialized 500)
  | Some p =>
      let current_vlc_state := vlc_get_state p in
      match current_vlc_state with
      | Paused =>
          player_call vlc_play ;;
          modify (set_is_playing true)
      | Stopped | Ended | NothingSpecial =>
          if in_bounds (current_track_index g) g then
            _play_track_at_index (current_track_index g) ;; ret tt
          else
            match current_playlist g with
            | [] => ret tt
            | _ => _play_track_at_index 0 ;; ret tt
            end
      | _ => ret tt
      end ;;
      status_response
  end.

(** [player_play], the route [/api/player/play]. *)
Definition player_play (data : pyval) : M Globals Response :=
  has_index <- (if truthy data then lift (py_in (lit "track_index") data) else ret false) ;;
  if (has_index : bool) then
    returned <-
      except_ValueError
        (raw <- lift (item_of (lit "track_index") data) ;;
         requested_index <- lift (py_int raw) ;;
         g <- get ;;
         if in_bounds requested_index g then
           _play_track_at_index requested_index ;;
           ret None
         else ret (Some (ErrorJson InvalidTrackIndex 400)))
        TrackIndexNotInteger ;;
    or_status returned
  else play_without_index.

(** The station dict [add_webradio] stores. *)
Definition station (name url_stream : text) : pyval :=
  PDict [ (lit "name", PStr name); (lit "url_stream", PStr url_stream) ].

(** The state [add_webradio] leaves when the stream cannot be started. *)
Definition radio_failed : M Globals unit :=
  modify (set_is_playing false) ;;
  modify (set_current_media_type MT_none) ;;
  modify (set_current_radio_info PNone).

(** The state [add_webradio] leaves when the stream started. *)
Definition radio_started (name url_stream : text) : M Globals unit :=
  modify (set_is_playing true) ;;
  modify (set_current_track_index (-1)) ;;
  modify (set_current_media_type MT_webradio) ;;
  modify (set_current_radio_info (station name url_stream)).

(** The [try] block of [add_webradio]: create the media with network
    caching, hand it to the player and start it.  It answers [Some r]
    where the block returns the error [r], [None] where it runs to its
    end. *)
Definition start_stream (name url_stream : text) : M Globals (option Response) :=
  try_except
    (media <- lift (vlc_media_new_with url_stream (lit ":network-caching=3000")) ;;
     match media with
     | None => ret (Some (ErrorJson MediaNotCreated 500))
     | Some media =>
         player_call (fun p => (tt, vlc_set_media media p)) ;;
         play_result <- player_call vlc_play ;;
         if play_result =? -1 then
           radio_failed ;;
           ret (Some (ErrorJson WebRadioPlayFailed 500))
         else
           radio_started name url_stream ;;
           ret None
     end)
    (fun _ =>
       radio_failed ;;
       ret (Some (ErrorJson WebRadioException 500))).

(** [add_webradio], the route [/api/webradios/add]. *)
Definition add_webradio (data : pyval) : M Globals Response :=
  missing <-
    (if negb (truthy data) then ret true
     else
       has_name <- lift (py_in (lit "name") data) ;;
       if negb has_name then ret true
       else
         has_url <- lift (py_in (lit "url_stream") data) ;;
         ret (negb has_url)) ;;
  if (missing : bool) then ret (ErrorJson MissingNameOrUrl 400)
  else
    raw_name <- lift (item_of (lit "name") data) ;;
    name <- lift (py_strip raw_name) ;;
    raw_url <- lift (item_of (lit "url_stream") data) ;;
    url_stream <- lift (py_strip raw_url) ;;
    match name, url_stream with
    | [], _ | _, [] => ret (ErrorJson EmptyNameOrUrl 400)
    | _, _ =>
        g <- get ;;
        match player g with
        | None => ret (ErrorJson PlayerNotInitialized 500)
        | Some p =>
            (if vlc_is_playing p || State_eqb (vlc_get_state p) Paused
             then player_stop else ret tt) ;;
            returned <- start_stream name url_stream ;;
            or_status returned
        end
    end.

End Routes.

End App.

(** ** [jukebox_gui.py]: history, favourites, next/previous and the search task *)

Module Gui.
Import Data.

(** The slots the window connects to the signals of a
    [YoutubeSearchWorker]. *)
Inductive results_slot :=
| Slot_handle_search_results
| Slot_handle_context_download_results.
Inductive error_slot :=
| Slot_handle_search_error
| Slot_handle_context_download_error.
Inductive progress_slot := Slot_query_lbl_setText.
Inductive finished_slot := Slot_on_search_worker_finished | Slot_deleteLater.

(** A [YoutubeSearchWorker] object: [wid] is its identity, [running] what
    [isRunning()] answers, [original_playlist_index] the attribute the
    context download sets on its worker, the four lists are the
    connections of its signals in connection order. *)
Record Worker := mkWorker {
  wid : nat;
  query : pyval;
  num_results : Z;
  download_audio : bool;
  _is_cancelled : bool;
  running : bool;
  original_playlist_index : option Z;
  results_ready : list results_slot;
  error_occurred : list error_slot;
  progress_update : list progress_slot;
  finished : list finished_slot
}.

(** [YoutubeSearchWorker.cancel]. *)
Definition cancel (w : Worker) : Worker :=
  mkWorker (wid w) (query w) (num_results w) (download_audio w) true (running w)
    (original_playlist_index w)
    (results_ready w) (error_occurred w) (progress_update w) (finished w).

(** [QThread.start]. *)
Definition start (w : Worker) : Worker :=
  mkWorker (wid w) (query w) (num_results w) (download_audio w) (_is_cancelled w) true
    (original_playlist_index w)
    (results_ready w) (error_occurred w) (progress_update w) (finished w).

(** The thread has left [run()]. *)
Definition stopped (w : Worker) : Worker :=
  mkWorker (wid w) (query w) (num_results w) (download_audio w) (_is_cancelled w) false
    (original_playlist_index w)
    (results_ready w) (error_occurred w) (progress_update w) (finished w).

(** The texts of the message boxes, by what they say. *)
Inductive notice :=
| EmptyQuery
| NoCurrentTrack
| NoIdentifier (t : Track)
| AlreadyFavorite (t : Track)
| FavoriteAdded (t : Track)
| InvalidDownloadIndex
| AlreadyLocal (t : Track)
| NoFfmpeg
| UnsupportedDownloadUrl (t : Track)
| DownloadBusy.

Inductive timer_callback := ClearWaitLabel.

(** What a method does to the world outside the window object: message
    boxes, files, widgets, the player, signals emitted, threads, console
    lines. *)
Inductive effect :=
| Info (n : notice)
| ErrorBox (n : notice)
| SaveJson (name : text) (data : list (list (text * pyval)))
| RefreshLists
| ClearMediaInfoWidgets
| PlayerStop
| EmitPlayTrack (index : Z)
| HideKeyboard
| ShowLoading
| HideLoading
| SingleShot (ms : Z) (callback : timer_callback)
| ServedFromCache (cached_track : Track)
| ThreadStart (w : nat)
| DeleteLater (w : nat)
| PrintSearchWorkerFinished.

(** The window object: the attributes of [Jukebox] the modelled methods
    read or write.  [loading_movie] is [None] without a movie, otherwise
    whether the movie is valid; [next_id] is the identity the next worker
    object receives; [effects] lists the effects so far, oldest first. *)
Record Jukebox := mkJukebox {
  playlist : list Track;
  history : list Track;
  favorites : list Track;
  current_idx : Z;
  current_track_info : option Track;
  is_searching : bool;
  yt_search_worker : option Worker;
  context_download_worker : option Worker;
  query_lbl : text;
  loading_movie : option bool;
  next_id : nat;
  effects : list effect
}.

Definition set_history (v : list Track) (j : Jukebox) : Jukebox :=
  mkJukebox (playlist j) v (favorites j) (current_idx j) (current_track_info j)
    (is_searching j) (yt_search_worker j) (context_download_worker j) (query_lbl j)
    (loading_movie j) (next_id j) (effects j).
Definition set_favorites (v : list Track) (j : Jukebox) : Jukebox :=
  mkJukebox (playlist j) (history j) v (current_idx j) (current_track_info j)
    (is_searching j) (yt_search_worker j) (context_download_worker j) (query_lbl j)
    (loading_movie j) (next_id j) (effects j).
Definition set_current_idx (v : Z) (j : Jukebox) : Jukebox :=
  mkJukebox (playlist j) (history j) (favorites j) v (current_track_info j)
    (is_searching j) (yt_search_worker j) (context_download_worker j) (query_lbl j)
    (loading_movie j) (next_id j) (effects j).
Definition set_current_track_info (v : option Track) (j : Jukebox) : Jukebox :=
  mkJukebox (playlist j) (history j) (favorites j) (current_idx j) v (is_searching j)
    (yt_search_worker j) (context_download_worker j) (query_lbl j) (loading_movie j)
    (next_id j) (effects j).
Definition set_is_searching (v : bool) (j : Jukebox) : Jukebox :=
  mkJukebox (playlist j) (history j) (favorites j) (current_idx j)
    (current_track_info j) v (yt_search_worker j) (context_download_worker j)
    (query_lbl j) (loading_movie j) (next_id j) (effects j).
Definition set_yt_search_worker (v : option Worker) (j : Jukebox) : Jukebox :=
  mkJukebox (playlist j) (history j) (favorites j) (current_idx j)
    (current_track_info j) (is_searching j) v (context_download_worker j) (query_lbl j)
    (loading_movie j) (next_id j) (effects j).
Definition set_context_download_worker (v : option Worker) (j : Jukebox) : Jukebox :=
  mkJukebox (playlist j) (history j) (favorites j) (current_idx j)
    (current_track_info j) (is_searching j) (yt_search_worker j) v (query_lbl j)
    (loading_movie j) (next_id j) (effects j).
Definition set_query_lbl (v : text) (j : Jukebox) : Jukebox :=
  mkJukebox (playlist j) (history j) (favorites j) (current_idx j)
    (current_track_info j) (is_searching j) (yt_search_worker j)
    (context_download_worker j) v (loading_movie j) (next_id j) (effects j).
Definition set_next_id (v : nat) (j : Jukebox) : Jukebox :=
  mkJukebox (playlist j) (history j) (favorites j) (current_idx j)
    (current_track_info j) (is_searching j) (yt_search_worker j)
    (context_download_worker j) (query_lbl j) (loading_movie j) v (effects j).
Definition set_effects (v : list effect) (j : Jukebox) : Jukebox :=
  mkJukebox (playlist j) (history j) (favorites j) (current_idx j)
    (current_track_info j) (is_searching j) (yt_search_worker j)
    (context_download_worker j) (query_lbl j) (loading_movie j) (next_id j) v.

Definition do_effect (e : effect) : M Jukebox unit :=
  modify (fun j => set_effects (effects j ++ [e]) j).

(** [save_json(name, data_list)] of [jukebox_data.py], seen from the
    window: the dictionaries written. *)
Definition save_json (name : text) (data_list : list Track) : M Jukebox unit :=
  do_effect (SaveJson name (map to_dict data_list)).

(** [track.duration_sec is not None and track.duration_sec > 0], the test
    [_refresh_lists] makes for every track it lists: [>] between a [str],
    a [list] or a [dict] and [0] is a [TypeError]. *)
Definition has_duration (t : Track) : outcome bool :=
  match duration_sec t with
  | PNone => Returned false
  | PInt z => Returned (0 <? z)
  | PBool b => Returned b
  | _ => Raised TypeError
  end.

(** One of the two loops of [_refresh_lists]. *)
Fixpoint list_tracks (tracks : list Track) : outcome unit :=
  match tracks with
  | [] => Returned tt
  | track :: rest =>
      let! _ := has_duration track in
      list_tracks rest
  end.

(** How the two loops of [_refresh_lists] end, over the playlist and then
    the history. *)
Definition refreshes (queue past : list Track) : outcome unit :=
  let! _ := list_tracks queue in
  list_tracks past.

(** [Jukebox._refresh_lists]: the widgets are cleared and filled again;
    the effect records that the refresh was begun. *)
Definition _refresh_lists : M Jukebox unit :=
  do_effect RefreshLists ;;
  j <- get ;;
  lift (refreshes (playlist j) (history j)).
Definition _info (n : notice) : M Jukebox unit := do_effect (Info n).
Definition _error (n : notice) : M Jukebox unit := do_effect (ErrorBox n).

(** [_clear_media_info]. *)
Definition _clear_media_info : M Jukebox unit :=
  do_effect ClearMediaInfoWidgets ;;
  modify (set_current_track_info None).

Section PlaySignal.

(** The slot connected to [play_track_signal], [_play_current_index].  The
    connection is direct, so the slot runs inside [emit], before the
    emitting method goes on; an exception that leaves the slot ends the
    call. *)
Variable play_track_slot : Z -> M Jukebox unit.

(** [self.play_track_signal.emit(index)]. *)
Definition emit_play_track (index : Z) : M Jukebox unit :=
  do_effect (EmitPlayTrack index) ;;
  play_track_slot index.

(** [Jukebox.play_next]: at the end of the playlist the player stops and
    nothing is selected; the loop back to the first track is commented out
    in the source. *)
Definition play_next : M Jukebox unit :=
  j <- get ;;
  match playlist j with
  | [] => ret tt
  | _ =>
      let current := current_idx j in
      let total_tracks := len (playlist j) in
      let next_idx := if current =? -1 then 0 else current + 1 in
      if total_tracks <=? next_idx then
        do_effect PlayerStop ;;
        modify (set_current_idx (-1)) ;;
        _clear_media_info ;;
        _refresh_lists
      else
        emit_play_track next_idx
  end.

End PlaySignal.

(** [track.webpage_url or track.url], the identifier history and favourites
    compare. *)
Definition identifier_of (t : Track) : pyval :=
  py_or (webpage_url t) (url t).

(** The clean copy of a track that history and favourites store:
    [Track(track.url, track.title, ...)]. *)
Definition copy_of (t : Track) : Track :=
  Track_init (url t) (title t) (thumbnail_url t) (duration_sec t) (is_local t)
    (webpage_url t).

(** [Jukebox._add_to_history]. *)
Definition _add_to_history (track : pyobj) : M Jukebox unit :=
  match track with
  | OVal _ => ret tt
  | OTrack track =>
      let identifier_to_add := identifier_of track in
      if negb (truthy identifier_to_add) then ret tt
      else
        j <- get ;;
        let new_history :=
          filter (fun h_track => negb (py_eq (identifier_of h_track) identifier_to_add))
                 (history j) in
        modify (set_history new_history) ;;
        let history_track := copy_of track in
        modify (fun j => set_history (history_track :: history j) j) ;;
        j <- get ;;
        (if MAX_HISTORY_SIZE <? len (history j)
         then modify (set_history (firstn (Z.to_nat MAX_HISTORY_SIZE) (history j)))
         else ret tt) ;;
        j <- get ;;
        save_json (lit "history.json") (history j) ;;
        _refresh_lists
  end.

(** [Jukebox.add_to_favorites]. *)
Definition add_to_favorites : M Jukebox unit :=
  j <- get ;;
  match current_track_info j with
  | None => _info NoCurrentTrack
  | Some track_to_add =>
      let identifier := identifier_of track_to_add in
      if negb (truthy identifier) then _error (NoIdentifier track_to_add)
      else if existsb (fun fav => py_eq (identifier_of fav) identifier) (favorites j)
      then _info (AlreadyFavorite track_to_add)
      else
        let fav_track := copy_of track_to_add in
        modify (fun j => set_favorites (favorites j ++ [fav_track]) j) ;;
        j <- get ;;
        save_json (lit "favorites.json") (favorites j) ;;
        _info (FavoriteAdded fav_track)
  end.

(** What the download cache answers for a query: nothing usable (not a
    recognised URL, or no cached file), a cached file, from which the
    branch builds [cached_track], queues it and shows [status] in the
    query label, or a cached file whose processing raises, after which
    the search goes on line.  The branch reads and writes neither
    [is_searching] nor [yt_search_worker]. *)
Inductive cache_answer :=
| NotCached
| Cached (cached_track : Track) (status : text)
| CacheError.

(** The widgets [search_song] reads. *)
Record SearchForm := mkSearchForm {
  search_in : text;
  vkbd_visible : bool;
  spin : Z;
  download_checkbox : bool
}.

(** [_show_loading]. *)
Definition _show_loading : M Jukebox unit :=
  j <- get ;;
  match loading_movie j with
  | Some true => do_effect ShowLoading
  | _ => modify (set_query_lbl (lit "Caricamento..."))
  end.

(** [_hide_loading]; [sender] is the identity of the object whose signal
    is being delivered, if any. *)
Definition _hide_loading (sender : option nat) : M Jukebox unit :=
  j <- get ;;
  let same :=
    match sender, yt_search_worker j with
    | Some a, Some w => Nat.eqb a (wid w)
    | None, None => true
    | _, _ => false
    end in
  if same then
    match loading_movie j with
    | Some _ => do_effect HideLoading
    | None =>
        if contains (lit "Caricamento...") (query_lbl j)
        then modify (set_query_lbl [])
        else ret tt
    end
  else ret tt.

(** [Jukebox.search_song].  The [except RuntimeError] around [cancel()]
    guards against a Qt object already deleted; worker objects of the
    model are never deleted, so [cancel] returns. *)
Definition search_song (cache : text -> cache_answer) (form : SearchForm)
  : M Jukebox unit :=
  let query := strip (search_in form) in
  match query with
  | [] => _info EmptyQuery
  | _ =>
      j <- get ;;
      if is_searching j then
        match yt_search_worker j with
        | Some w =>
            if running w
            then modify (set_yt_search_worker (Some (cancel w)))
            else modify (set_is_searching false)
        | None => modify (set_is_searching false)
        end ;;
        modify (set_query_lbl (lit "Attendere fine ricerca precedente o riprovare...")) ;;
        do_effect (SingleShot 2000 ClearWaitLabel)
      else
        (if vkbd_visible form then do_effect HideKeyboard else ret tt) ;;
        let num_results := spin form in
        let download_requested := download_checkbox form in
        served <-
          match cache query with
          | Cached cached_track status =>
              do_effect (ServedFromCache cached_track) ;;
              modify (set_query_lbl status) ;;
              ret true
          | CacheError => ret false
          | NotCached => ret false
          end ;;
        if (served : bool) then ret tt
        else
          modify (set_is_searching true) ;;
          _show_loading ;;
          j <- get ;;
          let worker :=
            mkWorker (next_id j) (PStr query) num_results download_requested false false
              None
              [Slot_handle_search_results] [Slot_handle_search_error]
              [Slot_query_lbl_setText] [Slot_on_search_worker_finished] in
          modify (set_next_id (S (next_id j))) ;;
          modify (set_yt_search_worker (Some (start worker))) ;;
          do_effect (ThreadStart (wid worker))
  end.

(** [Jukebox._on_search_worker_finished], run for the worker [sender]. *)
Definition _on_search_worker_finished (sender : option nat) : M Jukebox unit :=
  do_effect PrintSearchWorkerFinished ;;
  modify (set_is_searching false) ;;
  _hide_loading sender ;;
  match sender with
  | Some sender_worker =>
      do_effect (DeleteLater sender_worker) ;;
      j <- get ;;
      match yt_search_worker j with
      | Some w =>
          if Nat.eqb (wid w) sender_worker
          then modify (set_yt_search_worker None)
          else ret tt
      | None => ret tt
      end
  | None => ret tt
  end ;;
  j <- get ;;
  let current_status := query_lbl j in
  if contains (lit "...") current_status
     || contains (lit "Attendere") current_status
     || contains (lit "Estrazione") current_status
     || contains (lit "Caricamento") current_status
  then
    if negb (contains (lit "Errore") current_status)
    then modify (set_query_lbl [])
    else ret tt
  else ret tt.

(** Delivery of the [finished] signal of worker [w]: each connected slot
    runs once, in connection order. *)
Fixpoint deliver_finished (w : nat) (slots : list finished_slot) : M Jukebox unit :=
  match slots with
  | [] => ret tt
  | Slot_on_search_worker_finished :: rest =>
      _on_search_worker_finished (Some w) ;;
      deliver_finished w rest
  | Slot_deleteLater :: rest =>
      do_effect (DeleteLater w) ;;
      deliver_finished w rest
  end.

(** The thread of the worker [w] has left [run()], whether its work
    succeeded, failed or was cancelled: from now on [isRunning()] answers
    false, through whichever attribute the window still refers to the
    worker.  Qt delivers the worker's [finished] signal to the window
    later, from the event loop; a request of the user can be handled in
    between. *)
Definition thread_stopped (w : nat) : M Jukebox unit :=
  modify (fun j =>
            match yt_search_worker j with
            | Some w' =>
                if Nat.eqb (wid w') w
                then set_yt_search_worker (Some (stopped w')) j
                else j
            | None => j
            end) ;;
  modify (fun j =>
            match context_download_worker j with
            | Some w' =>
                if Nat.eqb (wid w') w
                then set_context_download_worker (Some (stopped w')) j
                else j
            | None => j
            end).

(** The two events of the end of worker [w] in a row, with no request
    handled in between. *)
Definition thread_finished (w : Worker) : M Jukebox unit :=
  thread_stopped (wid w) ;;
  deliver_finished (wid w) (finished w).

(** The workers the window refers to whose threads run. *)
Definition running_workers (j : Jukebox) : list nat :=
  flat_map (fun attribute => match attribute with
                             | Some w => if running w then [wid w] else []
                             | None => []
                             end)
    [yt_search_worker j; context_download_worker j].

Section ContextDownload.

(** [f"{title[:40]}"]: the first 40 characters of a [str]; for a value of
    another type, what slicing and [str()] make of it, or the exception
    slicing raises. *)
Variable title_40 : pyval -> outcome text.

(** [Jukebox._download_track_from_playlist]; [ffmpeg] tells whether
    [FFMPEG_PATH] is set. *)
Definition _download_track_from_playlist (ffmpeg : bool) (index : Z) : M Jukebox unit :=
  j <- get ;;
  if negb ((0 <=? index) && (index <? len (playlist j))) then _error InvalidDownloadIndex
  else
    track_to_download <- lift (Py.index (playlist j) index) ;;
    if truthy (is_local track_to_download) then _info (AlreadyLocal track_to_download)
    else if negb ffmpeg then _error NoFfmpeg
    else
      let url_to_download := webpage_url track_to_download in
      supported <-
        (if negb (truthy url_to_download) then ret false
         else
           on_youtube <- lift (App.py_in (lit "youtube.com") url_to_download) ;;
           if (on_youtube : bool) then ret true
           else lift (App.py_in (lit "youtu.be") url_to_download)) ;;
      if negb supported then _error (UnsupportedDownloadUrl track_to_download)
      else
        j <- get ;;
        if is_searching j then _info DownloadBusy
        else
          modify (set_is_searching true) ;;
          _show_loading ;;
          shown <- lift (title_40 (title track_to_download)) ;;
          modify (set_query_lbl (lit "Avvio download MP3 per: " ++ shown ++ lit "...")) ;;
          j <- get ;;
          let worker :=
            mkWorker (next_id j) url_to_download 1 true false false (Some index)
              [Slot_handle_context_download_results] [Slot_handle_context_download_error]
              [Slot_query_lbl_setText] [Slot_on_search_worker_finished] in
          modify (set_next_id (S (next_id j))) ;;
          modify (set_context_download_worker (Some (start worker))) ;;
          do_effect (ThreadStart (wid worker)).

End ContextDownload.

(** How often the finalize hook has run. *)
Definition hook_runs (j : Jukebox) : nat :=
  List.length
    (filter (fun e => match e with PrintSearchWorkerFinished => true | _ => false end)
       (effects j)).

(** The worker threads started so far. *)
Definition threads_started (j : Jukebox) : list nat :=
  flat_map (fun e => match e with ThreadStart w => [w] | _ => [] end) (effects j).

(** A sequence of record-played operations, one per played object. *)
Definition record_all (played : list pyobj) (j : Jukebox) : Jukebox :=
  fold_left (fun j track => snd (_add_to_history track j)) played j.

(** A sequence of add-favourite operations: before each one the window
    holds some current track, or none. *)
Definition add_all_to_favorites (current : list (option Track)) (j : Jukebox) : Jukebox :=
  fold_left (fun j track => snd (add_to_favorites (set_current_track_info track j)))
    current j.

(** No entry shares its identifier with a later entry, under the [==] the
    code compares identifiers with. *)
Definition unique_identifiers (l : list Track) : Prop :=
  ForallOrdPairs
    (fun earlier later => py_eq (identifier_of earlier) (identifier_of later) = false) l.

(** Whether some entry of [l] has the identifier [identifier]. *)
Definition has_identifier (identifier : pyval) (l : list Track) : bool :=
  existsb (fun entry => py_eq (identifier_of entry) identifier) l.

(** A request that reaches the worker: the query is not blank and the
    cache does not serve it. *)
Definition reaches_worker (cache : text -> cache_answer) (form : SearchForm) : Prop :=
  strip (search_in form) <> []
  /\ forall cached_track status,
       cache (strip (search_in form)) <> Cached cached_track status.

(** A sequence of search requests. *)
Definition search_all (cache : text -> cache_answer) (forms : list SearchForm) (j : Jukebox)
  : Jukebox :=
  fold_left (fun j form => snd (search_song cache form j)) forms j.

(** *** The playlist of the window *)

Definition set_playlist (v : list Track) (j : Jukebox) : Jukebox :=
  mkJukebox v (history j) (favorites j) (current_idx j) (current_track_info j)
    (is_searching j) (yt_search_worker j) (context_download_worker j) (query_lbl j)
    (loading_movie j) (next_id j) (effects j).

Section PlaylistMethods.

(** The slot connected to [play_track_signal], as in [emit_play_track]. *)
Variable play_track_slot : Z -> M Jukebox unit.

(** [Jukebox.play_previous]: at the first track, or with nothing selected,
    the first track is restarted; the loop to the last track is commented
    out in the source. *)
Definition play_previous : M Jukebox unit :=
  j <- get ;;
  match playlist j with
  | [] => ret tt
  | _ =>
      let current := current_idx j in
      let total_tracks := len (playlist j) in
      if current <=? 0 then
        if 0 <? total_tracks then emit_play_track play_track_slot 0 else ret tt
      else
        let prev_idx := current - 1 in
        emit_play_track play_track_slot prev_idx
  end.

End PlaylistMethods.



(** [l.pop(index)] for an index within [0, len(l)): the list without the
    element at [index]. *)
Definition pop {A} (index : Z) (l : list A) : list A :=
  firstn (Z.to_nat index) l ++ skipn (S (Z.to_nat index)) l.

Section RemoveTrack.

(** The slot connected to [play_track_signal], as in [emit_play_track]. *)
Variable play_track_slot : Z -> M Jukebox unit.

(** [Jukebox._remove_track_from_playlist]; [has_player] tells whether
    [self.player] is set. *)
Definition _remove_track_from_playlist (has_player : bool) (index : Z) : M Jukebox unit :=
  j <- get ;;
  if negb ((0 <=? index) && (index <? len (playlist j))) then ret tt
  else
    modify (set_playlist (pop index (playlist j))) ;;
    j <- get ;;
    (if index =? current_idx j then
       (if has_player then do_effect PlayerStop else ret tt) ;;
       _clear_media_info ;;
       if index <? len (playlist j) then
         emit_play_track play_track_slot index
       else
         match playlist j with
         | _ :: _ =>
             let new_index :=
               match playlist j with
               | [] => -1
               | _ => Z.max 0 (index - 1)
               end in
             if negb (new_index =? -1)
             then emit_play_track play_track_slot new_index
             else modify (set_current_idx (-1))
         | [] => modify (set_current_idx (-1))
         end
     else if index <? current_idx j then
       modify (set_current_idx (current_idx j - 1))
     else ret tt) ;;
    _refresh_lists ;;
    j <- get ;;
    save_json (lit "playlist.json") (playlist j).

End RemoveTrack.


End Gui.

(** ** Example collaborators

    A platform and an engine small enough to evaluate the definitions on
    concrete inputs. *)

Module Examples.
Import Data App.

(** A platform without audio files on disk, whose [DATA_DIR] holds at most
    [playlist.json], as given ([None]: no such file), whose file names
    have at most 255 characters (the existence test raises on a longer
    one), and whose [json.loads] decodes the two texts "[]" and "[null]"
    and rejects everything else. *)
Definition platform (playlist_json : option (outcome text)) : Platform := {|
  path_is_file := fun _ => Returned false;
  path_exists := fun _ => Returned false;
  path_resolve := fun p => Returned p;
  path_stem := fun p => p;
  path_suffix := fun _ => [];
  str_lower := fun s => s;
  py_repr := fun _ => lit "?";
  json_loads := fun s =>
    if text_eqb s (lit "[]") then Returned (PList [])
    else if text_eqb s (lit "[null]") then Returned (PList [PNone])
    else Raised JSONDecodeError;
  data_file := fun name =>
    if 255 <? len name then Raised OSError
    else Returned (if text_eqb name (lit "playlist.json") then playlist_json else None)
|}.

(** An engine that plays any media whose locator is a [str] not starting
    with "bad": the player is its state and the locator it has loaded. *)
Definition engine : Vlc := {|
  player_t := State * option pyval;
  media_t := pyval;
  vlc_is_playing := fun p => State_eqb (fst p) Playing;
  vlc_get_state := fun p => fst p;
  vlc_get_time := fun _ => 0;
  vlc_get_media := fun p => snd p;
  vlc_get_length := fun _ => 0;
  vlc_stop := fun p => (Stopped, snd p);
  vlc_play := fun p =>
    match snd p with
    | Some (PStr s) => if is_prefix (lit "bad") s then (-1, p) else (0, (Playing, snd p))
    | _ => (-1, p)
    end;
  vlc_set_media := fun m p => (fst p, Some m);
  vlc_media_new := fun v =>
    match v with
    | PStr _ => Returned (Some v)
    | _ => Raised TypeError
    end
|}.

Definition song (locator name : string) : Track :=
  Track_init (PStr (lit locator)) (PStr (lit name)) PNone (PInt 180) (PBool false)
    (PStr (lit locator)).

Definition song_a : Track := song "http://a" "A".
Definition song_b : Track := song "http://b" "B".
Definition song_c : Track := song "http://c" "C".

(** A track without a locator. *)
Definition no_locator : Track :=
  Track_init (PStr []) (PStr (lit "No locator")) PNone (PInt 0) (PBool false)
    (PStr (lit "http://page")).

(** States of the example engine. *)
Definition playing (locator : string) : @player_t engine :=
  (Playing, Some (PStr (lit locator))).

Definition idle : @player_t engine := (NothingSpecial, None).

Definition radio_deejay : pyval :=
  PDict [ (lit "name", PStr (lit "Radio Deejay (MP3)"));
          (lit "url_stream", PStr (lit "http://shoutcast.unitedradio.it/RadioDeejay")) ].

(** Module state of [app.py] over the example engine, at volume 80. *)
Definition session (p : option (@player_t engine)) (tracks : list Track) (index : Z)
  (now_playing : bool) (mode : MediaType) (radio : pyval) : @Globals engine :=
  @mkGlobals engine p tracks index now_playing 80 mode radio.

(** A is playing; the second track has no locator. *)
Definition a_then_no_locator : @Globals engine :=
  session (Some (playing "http://a")) [song_a; no_locator] 0 true MT_playlist PNone.


(** [A, B, C] with C playing. *)
Definition abc_on_c : @Globals engine :=
  session (Some (playing "http://c")) [song_a; song_b; song_c] 2 true MT_playlist PNone.

(** [A, B, C] with A, the first track, playing. *)
Definition abc_on_a : @Globals engine :=
  session (Some (playing "http://a")) [song_a; song_b; song_c] 0 true MT_playlist PNone.

(** [A, B], nothing played yet. *)
Definition ab_idle : @Globals engine :=
  session (Some idle) [song_a; song_b] (-1) false MT_none PNone.

(** The state the module starts in when the engine could not be created:
    no player, the playlist as loaded, nothing selected. *)
Definition no_engine : @Globals engine :=
  session None [song_a; song_b] (-1) false MT_none PNone.

(** A radio station is selected. *)
Definition on_radio (p : option (@player_t engine)) : @Globals engine :=
  session p [song_a] (-1) true MT_webradio radio_deejay.

(** A window with the given playlist, history, favourites and current
    track; no search is running. *)
Definition window (tracks past favs : list Track) (index : Z) (current : option Track)
  : Gui.Jukebox :=
  Gui.mkJukebox tracks past favs index current false None None [] None 0 [].

(** Sixty songs with sixty page URLs: "http://s/1", "http://s/11", ... *)
Definition sixty_songs : list Track :=
  map (fun n => Track_init (PStr (lit "http://stream")) (PStr (lit "S")) PNone (PInt 1)
                  (PBool false) (PStr (lit "http://s/" ++ repeat 49%N n)))
      (seq 1 60).

(** A stand-in for the slot of the play signal: it selects the track. *)
Definition select_track (index : Z) : M Gui.Jukebox unit :=
  modify (Gui.set_current_idx index).

(** A search form holding [query]. *)
Definition form (query : string) : Gui.SearchForm :=
  Gui.mkSearchForm (lit query) false 5 false.

(** A download cache that holds nothing. *)
Definition empty_cache : text -> Gui.cache_answer := fun _ => Gui.NotCached.

(** The further calls of the example engine: it can pause while it plays,
    the volume is not part of its state, and it has media for every
    stream but "http://down". *)
Definition controls : Controls engine := {|
  vlc_can_pause := fun p : @player_t engine =>
    State_eqb (fst (p : State * option pyval)) Playing;
  vlc_pause := fun p : @player_t engine =>
    ((Paused, snd (p : State * option pyval)) : @player_t engine);
  vlc_audio_set_volume := fun _ p => p;
  vlc_media_new_with := fun url_stream _ =>
    if text_eqb url_stream (lit "http://down") then Returned None
    else Returned (Some (PStr url_stream))
|}.

(** [int] on a text of decimal digits with white space around it; any
    other text is no integer literal here. *)
Fixpoint decimal (acc : Z) (s : text) : option Z :=
  match s with
  | [] => Some acc
  | c :: rest =>
      if ((48 <=? c) && (c <=? 57))%N
      then decimal (10 * acc + Z.of_N (c - 48)) rest
      else None
  end.

Definition int_of_digits (s : text) : option Z :=
  match strip s with
  | [] => None
  | digits => decimal 0 digits
  end.


(** A stream from YouTube that was not downloaded. *)
Definition clip : Track := song "https://www.youtube.com/watch?v=dQw4w9WgXcQ" "Clip".

(** [f"{title[:40]}"] for a title that is a [str]. *)
Definition first_40 (v : pyval) : outcome text :=
  match v with
  | PStr s => Returned (firstn 40 s)
  | _ => Raised TypeError
  end.

(** A name of 300 characters. *)
Definition long_name : text := repeat 97%N 300.

(** A request body with one key. *)
Definition body (key : string) (v : pyval) : pyval := PDict [ (lit key, v) ].

End Examples.

(** * Properties *)

Import Data.

(** ** Track migration and persistence *)

Section DataProperties.
Context {P : Platform}.

Lemma invalid_track_fields :
  url invalid_track = PNone /\ title invalid_track = PStr (lit "Invalid Track Data").
Proof. split; reflexivity. Qed.

Lemma migration_short_list (l : list pyval) :
  (List.length l < 5)%nat -> migration (PList l) = None.
Proof.
  intros H. simpl.
  destruct (5 <=? len l) eqn:E; [|reflexivity].
  apply Z.leb_le in E. unfold len in E. lia.
Qed.

(** C10.  A list with fewer than five elements migrates to the dummy
    track [Track(None, "Invalid Track Data")] (locator [None], the marker
    title), which is also the result for every value that is neither a
    string, a list nor a mapping. *)
Theorem from_dict_short_list_is_invalid_track (l : list pyval) :
  (List.length l < 5)%nat ->
  from_dict (PList l) = Returned invalid_track
  /\ url invalid_track = PNone
  /\ title invalid_track = PStr (lit "Invalid Track Data")
  /\ forall other, isinstance_dict_str_list other = false ->
                   from_dict other = from_dict (PList l).
Proof.
  intros H.
  assert (E : from_dict (PList l) = Returned invalid_track).
  { unfold from_dict. simpl isinstance_dict_str_list. cbv beta iota.
    simpl negb. cbv iota. now rewrite migration_short_list. }
  repeat split; try assumption; try reflexivity.
  intros other Ho. rewrite E. unfold from_dict. now rewrite Ho.
Qed.

Lemma convert_items_spec (f : pyval -> outcome Track) (raw_data : list pyval) (t : Track) :
  In t (convert_items f raw_data) <->
  exists item_data,
    In item_data raw_data /\ f item_data = Returned t
    /\ truthy (py_or (title t) (url t)) = true.
Proof.
  induction raw_data as [|d rest IH]; simpl.
  - split; [tauto | intros (x & [] & _)].
  - destruct (f d) as [item|e] eqn:Ef.
    + destruct (truthy (py_or (title item) (url item))) eqn:Ev.
      * simpl. rewrite IH. split.
        -- intros [->|(x & Hx & Hf & Hv)].
           ++ exists d. auto.
           ++ exists x. auto.
        -- intros (x & [->|Hx] & Hf & Hv).
           ++ left. congruence.
           ++ right. exists x. auto.
      * rewrite IH. split.
        -- intros (x & Hx & Hf & Hv). exists x. auto.
        -- intros (x & [->|Hx] & Hf & Hv).
           ++ congruence.
           ++ exists x. auto.
    + rewrite IH. split.
      * intros (x & Hx & Hf & Hv). exists x. auto.
      * intros (x & [->|Hx] & Hf & Hv).
        -- congruence.
        -- exists x. auto.
Qed.

Lemma py_or_truthy (a b : pyval) :
  truthy (py_or a b) = truthy a || truthy b.
Proof. unfold py_or. destruct (truthy a) eqn:E; simpl; auto. Qed.

(** The ways [load_json] ends. *)
Lemma load_json_shape (name : text) (item_class : option (pyval -> outcome Track)) :
  (exists e, data_file name = Raised e /\ load_json name item_class = Raised e)
  \/ load_json name item_class = Returned []
  \/ exists raw_data,
       load_json name item_class =
       Returned match item_class with
                | Some item_from_dict =>
                    map OTrack (convert_items item_from_dict raw_data)
                | None => map OVal raw_data
                end.
Proof.
  unfold load_json.
  destruct (data_file name) as [[[content|e]|]|e]; simpl; eauto.
  - right. destruct (strip content) as [|c rest]; simpl; auto.
    destruct (json_loads (c :: rest)) as [raw|e]; simpl.
    + destruct raw as [| | | |l|d]; simpl; auto.
      * right. exists l. now destruct item_class.
      * destruct d as [|[k v] d']; simpl; auto.
        destruct v; simpl; auto.
        destruct d'; simpl; auto.
        right. exists l. now destruct item_class.
    + destruct (is_JSONDecodeError e); auto.
  - right. destruct (is_JSONDecodeError e); auto.
Qed.

Lemma load_json_returns (name : text) (item_class : option (pyval -> outcome Track)) :
  (forall e, data_file name <> Raised e) ->
  exists l, load_json name item_class = Returned l.
Proof.
  intros Hex.
  destruct (load_json_shape name item_class) as [(e & He & _)|[E|(raw & E)]];
    [now apply Hex in He|rewrite E; eauto..].
Qed.

Lemma load_json_unusable (name : text) (item_class : option (pyval -> outcome Track)) :
  absent_empty_or_malformed name -> load_json name item_class = Returned [].
Proof.
  unfold absent_empty_or_malformed, load_json.
  destruct (data_file name) as [[[content|e]|]|e]; simpl; intros H; auto.
  - destruct H as [->|(e & He)]; [reflexivity|].
    destruct (strip content); [reflexivity|].
    rewrite He. simpl. now destruct (is_JSONDecodeError e).
  - now destruct (is_JSONDecodeError e).
  - contradiction.
Qed.

(** The conversion loop keeps exactly the elements of [kept]. *)
Lemma convert_items_kept (item_from_dict : pyval -> outcome Track) (raw_data : list pyval) :
  convert_items item_from_dict raw_data = kept item_from_dict raw_data.
Proof.
  unfold kept. induction raw_data as [|d rest IH]; [reflexivity|].
  cbn [convert_items flat_map].
  destruct (item_from_dict d) as [t|e]; [|exact IH].
  rewrite py_or_truthy. destruct (truthy (title t) || truthy (url t)); cbn [app];
    now rewrite IH.
Qed.

(** Loading a file that holds a non-blank JSON array. *)
Lemma load_json_array (name content : text) (raw_data : list pyval)
    (item_class : option (pyval -> outcome Track)) :
  data_file name = Returned (Some (Returned content)) ->
  strip content <> [] ->
  json_loads (strip content) = Returned (PList raw_data) ->
  load_json name item_class
  = Returned match item_class with
             | Some item_from_dict => map OTrack (kept item_from_dict raw_data)
             | None => map OVal raw_data
             end.
Proof.
  intros Hf Hs Hj. unfold load_json. rewrite Hf. cbn [obind catch].
  destruct (strip content) as [|c rest]; [contradiction|].
  rewrite Hj. cbn. destruct item_class; [|reflexivity].
  now rewrite convert_items_kept.
Qed.

End DataProperties.

(** ** The playback state machine *)

Import App.

(** Unfolding of the monadic plumbing. *)
Ltac run_monad :=
  cbv beta delta [bind ret raise modify get lift try_except
                  player_query player_call player_stop stop_if_player] iota.

Section AppProperties.
Context {V : Vlc}.

Lemma index_in_bounds {A} (l : list A) (i : Z) :
  0 <= i < len l -> exists a, Py.index l i = Returned a /\ nth_error l (Z.to_nat i) = Some a.
Proof.
  intros [H0 H1]. unfold Py.index.
  destruct (i <? 0) eqn:E; [apply Z.ltb_lt in E; lia|].
  rewrite E.
  destruct (nth_error l (Z.to_nat i)) as [a|] eqn:En; [eauto|].
  apply nth_error_None in En. unfold len in H1. lia.
Qed.

(** What the media-loading block leaves behind. *)
Lemma load_and_play_spec (i : Z) (t : Track) (g : Globals) (p : player_t) :
  player g = Some p ->
  exists b g1,
    load_and_play i t g = (Returned b, g1)
    /\ current_playlist g1 = current_playlist g
    /\ current_volume g1 = current_volume g
    /\ current_media_type g1 = current_media_type g
    /\ current_radio_info g1 = current_radio_info g
    /\ player g1 <> None
    /\ is_playing g1 = b
    /\ current_track_index g1 = (if b then i else current_track_index g)
    /\ (b = true -> truthy (url t) = true).
Proof.
  intros Hp. unfold load_and_play.
  destruct (truthy (url t)) eqn:Hu; simpl negb; cbv iota.
  - run_monad.
    destruct (vlc_media_new (url t)) as [[m|]|e]; cbn.
    + rewrite Hp. cbn.
      destruct (vlc_play (vlc_set_media m p)) as [r p'] eqn:Er. cbn.
      destruct (r =? -1); cbn;
        eexists _, _; (split; [reflexivity|]); cbn; repeat split; congruence.
    + eexists _, _; (split; [reflexivity|]); cbn; rewrite Hp;
        repeat split; congruence.
    + eexists _, _; (split; [reflexivity|]); cbn; rewrite Hp;
        repeat split; congruence.
  - run_monad. cbn.
    eexists _, _; (split; [reflexivity|]); cbn; rewrite Hp;
      repeat split; congruence.
Qed.

(** What [_play_track_at_index] leaves behind: it always returns; without
    a player only [is_playing] is cleared; with a player the media type is
    "playlist" and the radio info is dropped, an index out of bounds
    resets the index to -1, and an index in bounds is stored exactly when
    the call succeeds. *)
Lemma play_track_at_index_spec (i : Z) (g : Globals) :
  exists b g1,
    _play_track_at_index i g = (Returned b, g1)
    /\ current_playlist g1 = current_playlist g
    /\ current_volume g1 = current_volume g
    /\ is_playing g1 = b
    /\ match player g with
       | None =>
           b = false /\ g1 = set_is_playing false g
       | Some _ =>
           current_media_type g1 = MT_playlist
           /\ current_radio_info g1 = PNone
           /\ player g1 <> None
           /\ if in_bounds i g
              then current_track_index g1 = (if b then i else current_track_index g)
              else b = false /\ current_track_index g1 = -1
       end.
Proof.
  unfold _play_track_at_index, in_bounds. run_monad.
  destruct (player g) as [p|] eqn:Hp; cbn.
  2:{ eexists _, _; (split; [reflexivity|]); cbn. auto. }
  destruct ((0 <=? i) && (i <? len (current_playlist g))) eqn:Hb; cbn.
  2:{ repeat (progress (cbn; rewrite ?Hp)). eexists _, _; (split; [reflexivity|]); cbn.
      repeat split; congruence. }
  apply andb_true_iff in Hb as Hb'. destruct Hb' as [H0 H1].
  apply Z.leb_le in H0. apply Z.ltb_lt in H1.
  destruct (index_in_bounds (current_playlist g) i (conj H0 H1)) as (t & Ht & _).
  rewrite Ht. repeat (progress (cbn; rewrite ?Hp)).
  destruct (vlc_is_playing p || State_eqb (vlc_get_state p) Paused) eqn:Hbusy.
  - cbn. rewrite andb_true_r.
    destruct ((current_track_index g =? i) && State_eqb (vlc_get_state p) Paused) eqn:Hres;
      repeat (progress (cbn; rewrite ?Hp)).
    + destruct (vlc_play p) as [r p'] eqn:Er. cbn.
      apply andb_true_iff in Hres. destruct Hres as [Hi _]. apply Z.eqb_eq in Hi.
      destruct (r =? -1); cbn;
        eexists _, _; (split; [reflexivity|]); cbn; 
          repeat split; congruence.
    + match goal with |- context [load_and_play i t ?g2] =>
        destruct (load_and_play_spec i t g2 (vlc_stop p) eq_refl)
          as (b & g1 & E & Hl & Hv & Hm & Hr & Hq & Hplay & Hidx & _)
      end.
      rewrite E. exists b, g1. cbn in *.
      repeat split; auto.
  - match goal with |- context [load_and_play i t ?g2] =>
        destruct (load_and_play_spec i t g2 p Hp)
          as (b & g1 & E & Hl & Hv & Hm & Hr & Hq & Hplay & Hidx & _)
      end.
    rewrite E. exists b, g1. cbn in *.
    repeat split; auto.
Qed.

(** The status read in playlist mode on a valid index. *)
Lemma status_in_playlist_mode (g : Globals) :
  current_media_type g = MT_playlist ->
  0 <= current_track_index g < len (current_playlist g) ->
  Forall has_int_duration (current_playlist g) ->
  exists st g2,
    _get_player_status g = (Returned st, g2)
    /\ media_type st = MT_playlist
    /\ status_current_track_index st = current_track_index g
    /\ playlist_length st = len (current_playlist g).
Proof.
  intros Hm Hi Hd. unfold _get_player_status. run_monad.
  destruct (index_in_bounds _ _ Hi) as (t & Ht & Hn).
  assert (Hdur : exists z, duration_sec t = PInt z).
  { apply nth_error_In in Hn. rewrite Forall_forall in Hd. now apply Hd. }
  destruct Hdur as (z & Hz).
  assert (Hb : (0 <=? current_track_index g)
               && (current_track_index g <? len (current_playlist g)) = true).
  { apply andb_true_iff. split; [apply Z.leb_le|apply Z.ltb_lt]; tauto. }
  destruct (player g) as [p|] eqn:Hp.
  - destruct (is_playing g && negb (vlc_is_playing p)); cbn;
      rewrite Hm; cbn; rewrite Hb, Ht, ?Hp; cbn;
      (destruct (vlc_get_media p); cbn;
       [destruct (0 <? vlc_get_length p); cbn; rewrite ?Hz; cbn|]);
      eexists _, _; (split; [reflexivity|]); cbn; auto.
  - cbn. rewrite Hm. cbn. rewrite Hb, Ht. cbn. rewrite Hp. cbn.
    eexists _, _; (split; [reflexivity|]); cbn; auto.
Qed.

(** C1, amended.  For a valid index [i] of a playlist of tracks with
    integer durations, when play-at-index([i]) returns success the status
    read next reports the media type "playlist" and the current index
    [i]. *)
Theorem play_at_index_then_status (g g1 : Globals) (i : Z) :
  0 <= i < len (current_playlist g) ->
  Forall has_int_duration (current_playlist g) ->
  _play_track_at_index i g = (Returned true, g1) ->
  exists st g2,
    _get_player_status g1 = (Returned st, g2)
    /\ media_type st = MT_playlist
    /\ status_current_track_index st = i.
Proof.
  intros Hi Hd Hplay.
  destruct (play_track_at_index_spec i g) as (b & g1' & E & Hl & _ & _ & Hcase).
  rewrite Hplay in E. injection E as <- <-.
  destruct (player g) as [p|]; [|destruct Hcase; discriminate].
  destruct Hcase as (Hm & _ & _ & Hidx).
  assert (Hb : in_bounds i g = true).
  { apply andb_true_iff. split; [apply Z.leb_le|apply Z.ltb_lt]; tauto. }
  rewrite Hb in Hidx.
  destruct (status_in_playlist_mode g1) as (st & g2 & Es & Hmt & Hsi & _).
  - exact Hm.
  - rewrite Hidx, Hl. exact Hi.
  - now rewrite Hl.
  - exists st, g2. repeat split; congruence.
Qed.



Lemma play_next_track_target (from_event : bool) (g : Globals) :
  current_media_type g = MT_playlist ->
  current_playlist g <> [] ->
  _play_next_track from_event g =
  _play_track_at_index
    (if len (current_playlist g) <=? current_track_index g + 1
     then 0 else current_track_index g + 1) g.
Proof.
  intros Hm Hne. unfold _play_next_track. run_monad. rewrite Hm. cbn.
  destruct (current_playlist g); [contradiction|reflexivity].
Qed.




End AppProperties.

(** *** The state machine on the example engine *)

(** C1 as stated fails: with A playing, play-at-index(1) on a track without
    locator returns failure and the status still reports index 0. *)
Lemma play_at_index_then_status_counterexample :
  0 <= 1 < len (current_playlist Examples.a_then_no_locator)
  /\ exists g1 st g2,
       _play_track_at_index 1 Examples.a_then_no_locator = (Returned false, g1)
       /\ _get_player_status g1 = (Returned st, g2)
       /\ media_type st = MT_playlist
       /\ status_current_track_index st = 0
       /\ status_current_track_index st <> 1.
Proof.
  split; [cbn; lia|].
  eexists _, _, _. split; [vm_compute; reflexivity|].
  split; [vm_compute; reflexivity|].
  cbn. repeat split. discriminate.
Qed.

Lemma play_at_index_then_status_witness :
  exists st g2,
    _get_player_status (snd (_play_track_at_index 1 Examples.ab_idle)) = (Returned st, g2)
    /\ media_type st = MT_playlist
    /\ status_current_track_index st = 1.
Proof.
  apply (@play_at_index_then_status Examples.engine Examples.ab_idle
           (snd (_play_track_at_index 1 Examples.ab_idle)) 1).
  - cbn. lia.
  - repeat constructor; eexists; reflexivity.
  - vm_compute. reflexivity.
Defined.





(** The scenario of the specification: on [A, B, C] with C playing,
    play-next succeeds and the current index is 0. *)
Example play_next_on_last_of_abc :
  exists g1,
    _play_next_track false Examples.abc_on_c = (Returned true, g1)
    /\ current_track_index g1 = 0
    /\ is_playing g1 = true.
Proof. eexists. split; [vm_compute; reflexivity|]. split; reflexivity. Qed.

(** On the radio, the end-of-media event leaves the session as it is. *)
Example end_reached_on_radio :
  _handle_end_reached_event (Examples.on_radio (Some (Examples.playing "http://radio")))
  = (Returned tt, Examples.on_radio (Some (Examples.playing "http://radio"))).
Proof. reflexivity. Qed.

(** *** Migration and loading on the example platform *)

Lemma from_dict_short_list_is_invalid_track_witness :
  @from_dict (Examples.platform None) (PList [PStr (lit "http://a"); PStr (lit "A")])
  = Returned invalid_track.
Proof.
  refine (proj1 (@from_dict_short_list_is_invalid_track (Examples.platform None)
                   [PStr (lit "http://a"); PStr (lit "A")] _)).
  simpl. lia.
Defined.

(** ** History and favourites *)

Import Gui.

Ltac run_gui :=
  cbv beta delta [bind ret raise modify get lift try_except
                  do_effect save_json _refresh_lists _info _error
                  _clear_media_info] iota.

Lemma identifier_of_Track_init (u t th d l w : pyval) :
  identifier_of (Track_init u t th d l w) = py_or w u.
Proof.
  unfold Track_init, identifier_of, py_or.
  destruct (truthy l); cbn [andb]; [|reflexivity].
  destruct (truthy w) eqn:Hw.
  - assert (Hn : is_none w = false) by (destruct w; [discriminate Hw|reflexivity..]).
    rewrite Hn. cbn. now rewrite Hw.
  - rewrite orb_true_r. cbn. now destruct (truthy u).
Qed.

Lemma identifier_of_copy (t : Track) : identifier_of (copy_of t) = identifier_of t.
Proof. unfold copy_of. now rewrite identifier_of_Track_init. Qed.








Lemma unique_identifiers_snoc (l : list Track) (x : Track) :
  unique_identifiers l ->
  has_identifier (identifier_of x) l = false ->
  unique_identifiers (l ++ [x]).
Proof.
  unfold unique_identifiers, has_identifier.
  induction 1 as [|a l Ha Hl IH]; cbn; intros Hx.
  - repeat constructor.
  - apply orb_false_iff in Hx. destruct Hx as [Hax Hlx].
    constructor.
    + apply Forall_app. split; [exact Ha|]. now repeat constructor.
    + now apply IH.
Qed.

(** The favourites after one add-favourite operation. *)
Lemma add_to_favorites_favorites (j : Jukebox) :
  favorites (snd (add_to_favorites j)) =
  match current_track_info j with
  | None => favorites j
  | Some t =>
      if truthy (identifier_of t) && negb (has_identifier (identifier_of t) (favorites j))
      then favorites j ++ [copy_of t]
      else favorites j
  end.
Proof.
  unfold add_to_favorites, has_identifier. run_gui.
  destruct (current_track_info j) as [t|]; [|reflexivity].
  destruct (truthy (identifier_of t)); [|reflexivity].
  cbn [negb andb].
  destruct (existsb _ (favorites j)); reflexivity.
Qed.

Lemma add_to_favorites_unique (j : Jukebox) :
  unique_identifiers (favorites j) ->
  unique_identifiers (favorites (snd (add_to_favorites j))).
Proof.
  intros H. rewrite add_to_favorites_favorites.
  destruct (current_track_info j) as [t|]; [|exact H].
  destruct (truthy (identifier_of t)); [|exact H].
  cbn [andb].
  destruct (has_identifier (identifier_of t) (favorites j)) eqn:E; [exact H|].
  cbn [negb]. apply unique_identifiers_snoc; [exact H|].
  now rewrite identifier_of_copy.
Qed.

Lemma add_all_to_favorites_unique (current : list (option Track)) (j : Jukebox) :
  unique_identifiers (favorites j) ->
  unique_identifiers (favorites (add_all_to_favorites current j)).
Proof.
  revert j. induction current as [|c rest IH]; intros j H; [exact H|].
  unfold add_all_to_favorites in *. cbn [fold_left].
  apply IH. apply add_to_favorites_unique. exact H.
Qed.

(** C6.  Favourites without two entries of one identifier stay so through
    every sequence of add-favourite operations.  Adding the current track
    when its identifier is already among the favourites changes nothing in
    the list and only shows the "already a favourite" notice; otherwise a
    copy of the track is appended, the list is saved and the "added"
    notice is shown. *)
Theorem favorites_stay_unique (j : Jukebox) (current : list (option Track)) (t : Track) :
  unique_identifiers (favorites j) ->
  current_track_info j = Some t ->
  truthy (identifier_of t) = true ->
  unique_identifiers (favorites (add_all_to_favorites current j))
  /\ if has_identifier (identifier_of t) (favorites j)
     then add_to_favorites j
          = (Returned tt, set_effects (effects j ++ [Info (AlreadyFavorite t)]) j)
     else favorites (snd (add_to_favorites j)) = favorites j ++ [copy_of t]
          /\ effects (snd (add_to_favorites j))
             = effects j
               ++ [SaveJson (lit "favorites.json") (map to_dict (favorites j ++ [copy_of t]));
                   Info (FavoriteAdded (copy_of t))].
Proof.
  intros Hu Hc Ht. split; [now apply add_all_to_favorites_unique|].
  unfold add_to_favorites, has_identifier. run_gui.
  rewrite Hc, Ht. cbn [negb].
  destruct (existsb _ (favorites j)); [reflexivity|].
  cbn. fold (copy_of t). split; [reflexivity|].
  now rewrite <- app_assoc.
Qed.

(** ** The search task *)

Ltac run_search :=
  cbv beta delta [bind ret raise modify get lift try_except
                  do_effect _info _show_loading _hide_loading] iota.

Ltac split_ifs :=
  repeat match goal with
         | |- context [if ?c then _ else _] => destruct c
         | |- context [match ?c with Some _ => _ | None => _ end] => destruct c
         end.

Lemma threads_started_effect (e : effect) (j : Jukebox) :
  threads_started (set_effects (effects j ++ [e]) j)
  = threads_started j ++ match e with ThreadStart w => [w] | _ => [] end.
Proof.
  unfold threads_started. cbn [effects set_effects].
  rewrite flat_map_app. cbn. now rewrite app_nil_r.
Qed.

Lemma hook_runs_effect (e : effect) (j : Jukebox) :
  hook_runs (set_effects (effects j ++ [e]) j)
  = (hook_runs j + match e with PrintSearchWorkerFinished => 1 | _ => 0 end)%nat.
Proof.
  unfold hook_runs. cbn [effects set_effects].
  rewrite filter_app, length_app. now destruct e.
Qed.

(** A request made while the searching flag is set starts nothing; a
    running worker stays the current one, at most marked as cancelled. *)
Lemma search_song_while_searching (cache : text -> cache_answer) (form : SearchForm)
  (j : Jukebox) :
  is_searching j = true ->
  fst (search_song cache form j) = Returned tt
  /\ threads_started (snd (search_song cache form j)) = threads_started j
  /\ next_id (snd (search_song cache form j)) = next_id j
  /\ hook_runs (snd (search_song cache form j)) = hook_runs j
  /\ forall w, yt_search_worker j = Some w -> running w = true ->
       is_searching (snd (search_song cache form j)) = true
       /\ exists w', yt_search_worker (snd (search_song cache form j)) = Some w'
                     /\ wid w' = wid w /\ running w' = true
                     /\ finished w' = finished w.
Proof.
  intros Hs. unfold search_song.
  destruct (strip (search_in form)) as [|c q].
  - run_search. cbn [fst snd]. rewrite threads_started_effect, hook_runs_effect.
    cbn. rewrite app_nil_r, Nat.add_0_r.
    do 4 (split; [reflexivity || exact Hs|]).
    intros w Hw Hr. split; [exact Hs|]. exists w. auto.
  - run_search. rewrite Hs.
    destruct (yt_search_worker j) as [w0|] eqn:Hw; [destruct (running w0) eqn:Hr|];
      cbn [fst snd]; rewrite threads_started_effect, hook_runs_effect;
      cbn; rewrite app_nil_r, Nat.add_0_r;
      (do 4 (split; [reflexivity|])); intros w [= <-] Hr'.
    + split; [exact Hs|]. exists (cancel w0). cbn. auto.
    + congruence.
Qed.

(** A request made while the flag is clear, with a query the cache does not
    serve, starts a worker thread, sets the flag and connects the finalize
    hook, once, to the worker's [finished] signal. *)
Lemma search_song_starts (cache : text -> cache_answer) (form : SearchForm) (j : Jukebox) :
  is_searching j = false ->
  reaches_worker cache form ->
  fst (search_song cache form j) = Returned tt
  /\ is_searching (snd (search_song cache form j)) = true
  /\ threads_started (snd (search_song cache form j)) = threads_started j ++ [next_id j]
  /\ next_id (snd (search_song cache form j)) = S (next_id j)
  /\ hook_runs (snd (search_song cache form j)) = hook_runs j
  /\ exists w, yt_search_worker (snd (search_song cache form j)) = Some w
               /\ wid w = next_id j /\ running w = true
               /\ finished w = [Slot_on_search_worker_finished].
Proof.
  intros Hs [Hq Hc]. unfold search_song.
  destruct (strip (search_in form)) as [|c q] eqn:Eq; [contradiction|].
  run_search. rewrite Hs.
  destruct (cache (c :: q)) as [|cached_track status|] eqn:Ec;
    [|exfalso; exact (Hc _ _ eq_refl)|];
    destruct (vkbd_visible form); cbn;
    destruct (loading_movie j) as [[|]|]; cbn;
    unfold hook_runs, threads_started; cbn;
    rewrite ?filter_app, ?flat_map_app, ?length_app; cbn;
    rewrite ?app_nil_r, ?Nat.add_0_r, <- ?app_assoc;
    (do 5 (split; [reflexivity|])); eexists; (split; [reflexivity|]); cbn; auto.
Qed.

(** When the thread of the current worker is over, the finalize hook
    connected to it runs once and clears the flag; no thread is started. *)
Lemma thread_finished_clears (w : Worker) (j : Jukebox) :
  finished w = [Slot_on_search_worker_finished] ->
  fst (thread_finished w j) = Returned tt
  /\ is_searching (snd (thread_finished w j)) = false
  /\ hook_runs (snd (thread_finished w j)) = S (hook_runs j)
  /\ threads_started (snd (thread_finished w j)) = threads_started j
  /\ next_id (snd (thread_finished w j)) = next_id j.
Proof.
  intros Hf. unfold thread_finished, thread_stopped. rewrite Hf.
  cbn [deliver_finished]. unfold _on_search_worker_finished. run_search.
  cbn [fst snd].
  repeat match goal with
         | |- context [match yt_search_worker j with Some _ => _ | None => _ end] =>
             destruct (yt_search_worker j) as [w1|]
         | |- context [match context_download_worker j with Some _ => _ | None => _ end] =>
             destruct (context_download_worker j) as [w2|]
         | |- context [Nat.eqb ?a ?b] => destruct (Nat.eqb a b)
         end;
    cbn; split_ifs; cbn [fst snd]; unfold hook_runs, threads_started; cbn;
    rewrite ?filter_app, ?flat_map_app, ?length_app; cbn;
    rewrite ?app_nil_r; repeat split; lia.
Qed.

(** The notice a busy window shows. *)
Lemma search_song_busy_notice (cache : text -> cache_answer) (form : SearchForm)
  (j : Jukebox) :
  is_searching j = true ->
  strip (search_in form) <> [] ->
  query_lbl (snd (search_song cache form j))
  = lit "Attendere fine ricerca precedente o riprovare...".
Proof.
  intros Hs Hq. unfold search_song.
  destruct (strip (search_in form)) as [|c q]; [contradiction|].
  run_search. rewrite Hs.
  destruct (yt_search_worker j) as [w|]; [destruct (running w)|]; reflexivity.
Qed.

Lemma search_all_while_running (cache : text -> cache_answer) (forms : list SearchForm) :
  forall (j : Jukebox) (w : Worker),
    is_searching j = true -> yt_search_worker j = Some w -> running w = true ->
    is_searching (search_all cache forms j) = true
    /\ threads_started (search_all cache forms j) = threads_started j
    /\ hook_runs (search_all cache forms j) = hook_runs j
    /\ next_id (search_all cache forms j) = next_id j
    /\ exists w', yt_search_worker (search_all cache forms j) = Some w'
                  /\ wid w' = wid w /\ running w' = true
                  /\ finished w' = finished w.
Proof.
  induction forms as [|form rest IH]; intros j w Hs Hw Hr.
  - cbn. repeat split; auto. exists w. auto.
  - unfold search_all in *. cbn [fold_left].
    destruct (search_song_while_searching cache form j Hs)
      as (_ & Ht & Hn & Hh & Hkeep).
    destruct (Hkeep w Hw Hr) as (Hs1 & w1 & Hw1 & Hid1 & Hr1 & Hf1).
    destruct (IH _ w1 Hs1 Hw1 Hr1) as (Hs2 & Ht2 & Hh2 & Hn2 & w2 & Hw2 & Hid2 & Hr2 & Hf2).
    repeat split; try congruence.
    exists w2. repeat split; congruence.
Qed.

(** Search requests on their own, when the finalize hook of a worker is
    delivered before the next request is handled.  From a window that is
    not searching: a request that reaches the worker starts one thread and
    sets the searching flag; every request made while the flag is set
    starts no thread, and while that worker runs the flag stays set,
    whatever the requests; when the worker's thread is over, however it
    ended, the finalize hook connected to its [finished] signal runs once
    and clears the flag; the next request that reaches the worker starts a
    new thread. *)
Lemma searches_alone_start_one_thread (cache : text -> cache_answer) (j0 : Jukebox)
  (first next : SearchForm) (later : list SearchForm) :
  is_searching j0 = false ->
  reaches_worker cache first ->
  reaches_worker cache next ->
  (forall j form,
     is_searching j = true ->
     threads_started (snd (search_song cache form j)) = threads_started j
     /\ (strip (search_in form) <> [] ->
         query_lbl (snd (search_song cache form j))
         = lit "Attendere fine ricerca precedente o riprovare..."))
  /\ let j1 := snd (search_song cache first j0) in
     let j2 := search_all cache later j1 in
     is_searching j1 = true
     /\ threads_started j1 = threads_started j0 ++ [next_id j0]
     /\ is_searching j2 = true
     /\ threads_started j2 = threads_started j1
     /\ hook_runs j2 = hook_runs j0
     /\ exists w,
          yt_search_worker j2 = Some w
          /\ wid w = next_id j0
          /\ finished w = [Slot_on_search_worker_finished]
          /\ let j3 := snd (thread_finished w j2) in
             let j4 := snd (search_song cache next j3) in
             is_searching j3 = false
             /\ hook_runs j3 = S (hook_runs j2)
             /\ threads_started j3 = threads_started j2
             /\ is_searching j4 = true
             /\ threads_started j4 = threads_started j0 ++ [next_id j0; next_id j3].
Proof.
  intros Hs Hfirst Hnext. split.
  { intros j form Hj. split; [now apply search_song_while_searching|].
    now apply search_song_busy_notice. }
  cbv zeta.
  destruct (search_song_starts cache first j0 Hs Hfirst)
    as (_ & Hs1 & Ht1 & Hn1 & Hh1 & w1 & Hw1 & Hid1 & Hr1 & Hf1).
  destruct (search_all_while_running cache later _ w1 Hs1 Hw1 Hr1)
    as (Hs2 & Ht2 & Hh2 & Hn2 & w2 & Hw2 & Hid2 & Hr2 & Hf2).
  do 4 (split; [assumption|]).
  split; [congruence|].
  exists w2. split; [exact Hw2|]. split; [congruence|]. split; [congruence|].
  assert (Hf : finished w2 = [Slot_on_search_worker_finished]) by congruence.
  destruct (thread_finished_clears w2 (search_all cache later (snd (search_song cache first j0))) Hf)
    as (_ & Hs3 & Hh3 & Ht3 & Hn3).
  destruct (search_song_starts cache next _ Hs3 Hnext)
    as (_ & Hs4 & Ht4 & _).
  do 4 (split; [assumption|]).
  rewrite Ht4, Ht3, Ht2, Ht1, <- app_assoc. reflexivity.
Qed.

(** The forced reset of [search_song]: a request that finds the flag set
    and no running worker in [yt_search_worker] clears the flag itself,
    without the finalize hook, and starts nothing; a worker kept in
    [context_download_worker] is not looked at and goes on running. *)
Lemma search_song_forced_reset (cache : text -> cache_answer) (form : SearchForm)
  (j : Jukebox) :
  is_searching j = true ->
  strip (search_in form) <> [] ->
  match yt_search_worker j with
  | Some w => running w = false
  | None => True
  end ->
  is_searching (snd (search_song cache form j)) = false
  /\ hook_runs (snd (search_song cache form j)) = hook_runs j
  /\ threads_started (snd (search_song cache form j)) = threads_started j
  /\ context_download_worker (snd (search_song cache form j)) = context_download_worker j
  /\ running_workers (snd (search_song cache form j)) = running_workers j.
Proof.
  intros Hs Hq Hw. unfold search_song.
  destruct (strip (search_in form)) as [|c q]; [contradiction|].
  run_search. rewrite Hs. unfold running_workers.
  destruct (yt_search_worker j) as [w|] eqn:Ew; [rewrite Hw|];
    cbn [fst snd]; rewrite threads_started_effect, hook_runs_effect; cbn;
    rewrite ?Ew, ?Hw, app_nil_r, Nat.add_0_r; auto.
Qed.




(** On [A, B, C] with C selected, the window's play-next selects nothing. *)
Example gui_play_next_on_last_of_abc :
  current_idx
    (snd (play_next Examples.select_track
            (Examples.window [Examples.song_a; Examples.song_b; Examples.song_c]
               [] [] 2 None)))
  = -1.
Proof. reflexivity. Qed.

(** *** History, favourites and search on example windows *)


(** Sixty different songs played from an empty history leave the last
    fifty, the latest first; playing the oldest of them again moves it to
    the front and the length stays 50. *)
Example history_after_sixty_songs :
  let j := record_all (map OTrack Examples.sixty_songs)
             (Examples.window [] [] [] (-1) None) in
  len (history j) = 50
  /\ map identifier_of (history j)
     = map identifier_of (rev (skipn 10 Examples.sixty_songs))
  /\ let again := nth 10 Examples.sixty_songs Examples.song_a in
     len (history (snd (_add_to_history (OTrack again) j))) = 50
     /\ option_map identifier_of (hd_error (history (snd (_add_to_history (OTrack again) j))))
        = Some (identifier_of again).
Proof. vm_compute. repeat split. Qed.

Lemma favorites_stay_unique_witness :
  unique_identifiers
    (favorites
       (add_all_to_favorites [Some Examples.song_b; Some Examples.song_a; None]
          (Examples.window [] [] [Examples.song_a] 0 (Some Examples.song_a)))).
Proof.
  refine (proj1 (favorites_stay_unique
                   (Examples.window [] [] [Examples.song_a] 0 (Some Examples.song_a))
                   [Some Examples.song_b; Some Examples.song_a; None]
                   Examples.song_a _ _ _)).
  - repeat constructor.
  - reflexivity.
  - vm_compute. reflexivity.
Defined.

(** Adding A twice and B once leaves the favourites [A, B]. *)
Example favorites_after_a_b_a :
  favorites
    (add_all_to_favorites [Some Examples.song_b; Some Examples.song_a; None]
       (Examples.window [] [] [Examples.song_a] 0 (Some Examples.song_a)))
  = [Examples.song_a; Examples.song_b].
Proof. vm_compute. reflexivity. Qed.

(** C4.  The claim fails on the code: a context download sets the same
    searching flag and keeps its worker in [context_download_worker].
    While it runs, a search request is turned away, but finds no running
    worker in [yt_search_worker] and clears the flag itself, without the
    finalize hook having run; the request after that starts a second
    worker thread while the download is still running. *)
Theorem search_during_context_download :
  let j0 := Examples.window [Examples.clip] [] [] (-1) None in
  let j1 := snd (_download_track_from_playlist Examples.first_40 true 0 j0) in
  let j2 := snd (search_song Examples.empty_cache (Examples.form "abba") j1) in
  let j3 := snd (search_song Examples.empty_cache (Examples.form "abba") j2) in
  (is_searching j1 = true
   /\ threads_started j1 = [0%nat]
   /\ running_workers j1 = [0%nat])
  /\ (is_searching j2 = false
      /\ hook_runs j2 = 0%nat
      /\ threads_started j2 = [0%nat]
      /\ running_workers j2 = [0%nat]
      /\ query_lbl j2 = lit "Attendere fine ricerca precedente o riprovare...")
  /\ (is_searching j3 = true
      /\ hook_runs j3 = 0%nat
      /\ threads_started j3 = [0%nat; 1%nat]
      /\ running_workers j3 = [1%nat; 0%nat]).
Proof. vm_compute. repeat split. Qed.

(** Search requests on the example window: the first starts a thread and
    sets the flag. *)
Example first_search_sets_the_flag :
  is_searching
    (snd (search_song Examples.empty_cache (Examples.form "abba")
            (Examples.window [] [] [] (-1) None)))
  = true.
Proof.
  refine (proj1 (proj2 (searches_alone_start_one_thread Examples.empty_cache
                          (Examples.window [] [] [] (-1) None)
                          (Examples.form "abba") (Examples.form "queen")
                          [Examples.form "beatles"; Examples.form "  "] _ _ _))).
  - reflexivity.
  - split; [vm_compute; discriminate|intros; discriminate].
  - split; [vm_compute; discriminate|intros; discriminate].
Qed.

(** Three requests in a row start one thread; after the worker's thread is
    over and its hook has run, a fourth request starts the second. *)
Example search_requests_in_a_row :
  let j2 := search_all Examples.empty_cache
              [Examples.form "abba"; Examples.form "beatles"; Examples.form "queen"]
              (Examples.window [] [] [] (-1) None) in
  threads_started j2 = [0%nat]
  /\ is_searching j2 = true
  /\ match yt_search_worker j2 with
     | Some w =>
         _is_cancelled w = true
         /\ threads_started
              (snd (search_song Examples.empty_cache (Examples.form "queen")
                      (snd (thread_finished w j2))))
            = [0%nat; 1%nat]
     | None => False
     end.
Proof. vm_compute. repeat split. Qed.

(** The same forced reset between the end of a search thread and the
    delivery of its [finished] signal: a request handled in between clears
    the flag, the next one starts a second worker, and the hook of the
    first worker, delivered then, clears the flag while the second worker
    runs, so that one more request starts a third. *)
Example search_between_stop_and_hook :
  let j1 := snd (search_song Examples.empty_cache (Examples.form "abba")
                   (Examples.window [] [] [] (-1) None)) in
  let j2 := snd (thread_stopped 0 j1) in
  let j3 := snd (search_song Examples.empty_cache (Examples.form "queen") j2) in
  let j4 := snd (search_song Examples.empty_cache (Examples.form "queen") j3) in
  let j5 := snd (deliver_finished 0 [Slot_on_search_worker_finished] j4) in
  let j6 := snd (search_song Examples.empty_cache (Examples.form "beatles") j5) in
  is_searching j3 = false
  /\ threads_started j4 = [0%nat; 1%nat]
  /\ running_workers j4 = [1%nat]
  /\ is_searching j5 = false
  /\ running_workers j5 = [1%nat]
  /\ threads_started j6 = [0%nat; 1%nat; 2%nat].
Proof. vm_compute. repeat split. Qed.

(** * Further properties *)

(** ** Track migration *)

Section MigrationProperties.
Context {P : Platform}.

Lemma title_infer_local (md : list (text * pyval)) (t : Track) :
  title (infer_local md t) = title t /\ webpage_url (infer_local md t) = webpage_url t
  /\ duration_sec (infer_local md t) = duration_sec t.
Proof.
  unfold infer_local.
  destruct (negb _); [|auto].
  destruct (truthy (url t)); [|auto].
  destruct (existsb _ _); [|auto].
  destruct (path_exists _) as [[|]|]; auto.
  destruct (path_resolve _); auto.
Qed.

Lemma backfill_keeps (t t' : Track) :
  backfill_webpage_url t = Returned t' ->
  title t' = title t /\ duration_sec t' = duration_sec t /\ url t' = url t
  /\ (truthy (webpage_url t) = true -> webpage_url t' = webpage_url t).
Proof.
  unfold backfill_webpage_url.
  destruct (truthy (webpage_url t)) eqn:Hw.
  - assert (Hn : is_none (webpage_url t) = false)
      by (destruct (webpage_url t); [discriminate Hw|reflexivity..]).
    rewrite Hn. cbn. rewrite !andb_false_r. cbn. intros [= <-]. auto.
  - destruct (truthy (is_local t) && _); [intros [= <-]; cbn; intuition discriminate|].
    destruct (negb _ && _ && _); [|intros [= <-]; intuition discriminate].
    destruct (startswith _ _) as [[|]|]; cbn; intros [= <-]; cbn; intuition discriminate.
Qed.

Lemma fallback_title_truthy (t : Track) : truthy (title (fallback_title t)) = true.
Proof.
  unfold fallback_title. destruct (truthy (title t)) eqn:E; cbn; [exact E|reflexivity].
Qed.

(** The title of a converted track is not empty: the dummy track carries
    "Invalid Track Data", and any other result went through the "Titolo
    Sconosciuto" fallback. *)
Lemma from_dict_title_truthy (data : pyval) (t : Track) :
  from_dict data = Returned t ->
  truthy (title t) = true.
Proof.
  unfold from_dict.
  destruct (negb (isinstance_dict_str_list data)); [intros [= <-]; reflexivity|].
  destruct (migration data) as [[md id]|]; [|intros [= <-]; reflexivity].
  cbv zeta. intros H. apply backfill_keeps in H. destruct H as (Ht & _).
  rewrite Ht. destruct (title_infer_local md (fallback_title
    (improve_title id (Track_init (dict_get md (lit "url") PNone)
       (dict_get md (lit "title") (py_or id (PStr (lit "Titolo Sconosciuto"))))
       (dict_get md (lit "thumbnail_url") PNone)
       (dict_get md (lit "duration_sec") (PInt 0))
       (dict_get md (lit "is_local") (PBool false))
       (dict_get md (lit "webpage_url") PNone))))) as (Hi & _).
  rewrite Hi. apply fallback_title_truthy.
Qed.

(** X1.  A track that [Track.from_dict] returns always has a title that is
    not empty, so it always passes the validity test [item.title or
    item.url] of [load_json], whatever its url. *)
Theorem from_dict_title_never_empty (data : pyval) (t : Track) :
  from_dict data = Returned t ->
  truthy (title t) = true
  /\ truthy (py_or (title t) (url t)) = true.
Proof.
  intros H. pose proof (from_dict_title_truthy data t H) as Ht.
  split; [exact Ht|]. rewrite py_or_truthy, Ht. reflexivity.
Qed.

Lemma convert_items_from_dict (raw_data : list pyval) :
  convert_items from_dict raw_data
  = flat_map (fun item_data => match from_dict item_data with
                               | Returned item => [item]
                               | Raised _ => []
                               end) raw_data.
Proof.
  induction raw_data as [|d rest IH]; [reflexivity|].
  cbn [convert_items flat_map].
  destruct (from_dict d) as [t|e] eqn:E; [|exact IH].
  rewrite py_or_truthy, (from_dict_title_truthy d t E). cbn.
  now rewrite IH.
Qed.

(** X2.  Loading a JSON array with [Track.from_dict] as normalizer never
    rejects a converted element: the result holds, in order, the track of
    every element whose conversion returns, the dummy track of an
    unsupported element included, and leaves out only the elements whose
    conversion raises. *)
Theorem load_json_from_dict_keeps_all (name content : text) (raw_data : list pyval) :
  data_file name = Returned (Some (Returned content)) ->
  strip content <> [] ->
  json_loads (strip content) = Returned (PList raw_data) ->
  load_json name (Some from_dict)
  = Returned (map OTrack
                (flat_map (fun item_data => match from_dict item_data with
                                            | Returned item => [item]
                                            | Raised _ => []
                                            end) raw_data)).
Proof.
  intros Hf Hs Hj. unfold load_json. rewrite Hf. cbn [obind catch].
  destruct (strip content) as [|c rest]; [contradiction|].
  rewrite Hj. cbn. now rewrite convert_items_from_dict.
Qed.

(** C8, amended.  When the existence test of the file returns: loading a
    named list whose file is absent, unreadable, empty or malformed JSON
    returns the empty list, and the load returns a list, it does not
    raise.  With a normalizer, the list loaded from a JSON array is
    exactly, in order, the converted elements that have a title or a
    locator: an element converted to an object with neither is skipped,
    and so is one whose conversion raises.  With [Track.from_dict] as the
    normalizer no converted element is skipped that way, since every track
    it returns has a title. *)
Theorem load_json_tolerant (name : text) (item_class : option (pyval -> outcome Track))
    (found : option (outcome text)) :
  data_file name = Returned found ->
  (absent_empty_or_malformed name -> load_json name item_class = Returned [])
  /\ (exists l, load_json name item_class = Returned l)
  /\ (forall content raw_data item_from_dict,
        found = Some (Returned content) ->
        strip content <> [] ->
        json_loads (strip content) = Returned (PList raw_data) ->
        load_json name (Some item_from_dict)
        = Returned (map OTrack (kept item_from_dict raw_data))
        /\ forall t,
             In t (kept item_from_dict raw_data)
             <-> exists item_data,
                   In item_data raw_data
                   /\ item_from_dict item_data = Returned t
                   /\ (truthy (title t) || truthy (url t)) = true)
  /\ (forall raw_data,
        kept from_dict raw_data
        = flat_map (fun item_data => match from_dict item_data with
                                     | Returned item => [item]
                                     | Raised _ => []
                                     end) raw_data).
Proof.
  intros Hfound.
  split; [apply load_json_unusable|].
  split; [apply load_json_returns; intros e He; congruence|].
  split.
  - intros content raw f -> Hs Hj.
    split; [exact (load_json_array name content raw (Some f) Hfound Hs Hj)|].
    intros t. unfold kept. rewrite in_flat_map. split.
    + intros (d & Hd & Ht). exists d. split; [exact Hd|].
      destruct (f d) as [t'|e]; [|destruct Ht].
      destruct (truthy (title t') || truthy (url t')) eqn:Hv; [|destruct Ht].
      destruct Ht as [<-|[]]. auto.
    + intros (d & Hd & Hf & Hv). exists d. split; [exact Hd|].
      rewrite Hf, Hv. now left.
  - intros raw. rewrite <- convert_items_kept. apply convert_items_from_dict.
Qed.

Lemma improve_title_keeps (id : pyval) (t : Track) :
  url (improve_title id t) = url t /\ webpage_url (improve_title id t) = webpage_url t
  /\ is_local (improve_title id t) = is_local t
  /\ duration_sec (improve_title id t) = duration_sec t.
Proof.
  unfold improve_title. destruct (_ && _); [|auto].
  destruct (path_is_file _) as [[|]|]; auto.
Qed.

Lemma fallback_title_keeps (t : Track) :
  url (fallback_title t) = url t /\ webpage_url (fallback_title t) = webpage_url t
  /\ is_local (fallback_title t) = is_local t
  /\ duration_sec (fallback_title t) = duration_sec t.
Proof. unfold fallback_title. destruct (negb _); auto. Qed.

(** What the locality heuristic does to the locator and the local flag:
    nothing, or the track becomes local, with a [str] locator when
    [resolve()] returns. *)
Lemma infer_local_cases (md : list (text * pyval)) (t : Track) :
  (url (infer_local md t) = url t /\ is_local (infer_local md t) = is_local t)
  \/ (is_local (infer_local md t) = PBool true
      /\ truthy (url t) = true
      /\ (url (infer_local md t) = url t
          \/ exists s, url (infer_local md t) = PStr s)).
Proof.
  unfold infer_local.
  destruct (negb _); [|auto].
  destruct (truthy (url t)) eqn:Hu; [|auto].
  destruct (existsb _ _); [|auto].
  destruct (path_exists _) as [[|]|]; auto.
  destruct (path_resolve _); cbn; right; eauto.
Qed.

Lemma is_none_true (v : pyval) : is_none v = true -> v = PNone.
Proof. now destruct v. Qed.

Lemma Track_init_fields (u t th d l w : pyval) :
  url (Track_init u t th d l w) = u
  /\ is_local (Track_init u t th d l w) = l
  /\ duration_sec (Track_init u t th d l w) = d
  /\ title (Track_init u t th d l w) = t
  /\ webpage_url (Track_init u t th d l w)
     = (if truthy l && (is_none w || negb (truthy w)) then u else w).
Proof. unfold Track_init. destruct (_ && _); cbn; auto. Qed.

(** X3.  [Track.from_dict] raises in one situation only: the record gives a
    locator that is true but not a [str], no page URL ([None] or absent)
    and no true [is_local]; the exception is the [AttributeError] of
    [startswith].  In particular a record whose locator is a string or
    false never makes it raise. *)
Theorem from_dict_raises_only_on_odd_locator (data : pyval) (e : exn) :
  from_dict data = Raised e ->
  e = AttributeError
  /\ exists migrated_data identifier_url,
       migration data = Some (migrated_data, identifier_url)
       /\ str_or_false (dict_get migrated_data (lit "url") PNone) = false
       /\ dict_get migrated_data (lit "webpage_url") PNone = PNone
       /\ truthy (dict_get migrated_data (lit "is_local") (PBool false)) = false.
Proof.
  unfold from_dict.
  destruct (negb (isinstance_dict_str_list data)); [discriminate|].
  destruct (migration data) as [[md id]|]; [|discriminate].
  cbv zeta.
  set (t0 := Track_init _ _ _ _ _ _).
  set (t1 := fallback_title (improve_title id t0)).
  destruct (improve_title_keeps id t0) as (Hu1 & Hw1 & Hl1 & _).
  destruct (fallback_title_keeps (improve_title id t0)) as (Hu2 & Hw2 & Hl2 & _).
  destruct (title_infer_local md t1) as (_ & Hw3 & _).
  unfold backfill_webpage_url.
  destruct (truthy (is_local (infer_local md t1)) && _) eqn:C1; [discriminate|].
  destruct (negb _ && _ && _) eqn:C2; [|discriminate].
  destruct (startswith (url (infer_local md t1)) (lit "http")) as [b|e'] eqn:Es;
    [discriminate|].
  cbn. intros [= <-].
  apply andb_true_iff in C2. destruct C2 as [C2 Hut].
  apply andb_true_iff in C2. destruct C2 as [Hnl Hwn].
  apply negb_true_iff in Hnl.
  assert (Hurl : url (infer_local md t1) = url t1 /\ is_local (infer_local md t1) = is_local t1).
  { destruct (infer_local_cases md t1) as [H|(Hl & _)]; [exact H|].
    rewrite Hl in Hnl. discriminate. }
  destruct Hurl as [Hu3 Hl3].
  assert (Hw0 : webpage_url t1 = webpage_url t0) by (unfold t1; congruence).
  assert (Hu0 : url t1 = url t0) by (unfold t1; congruence).
  assert (Hl0 : is_local t1 = is_local t0) by (unfold t1; congruence).
  rewrite Hw3, Hw0 in Hwn. rewrite Hl3, Hl0 in Hnl. rewrite Hu3, Hu0 in Hut, Es.
  destruct (Track_init_fields (dict_get md (lit "url") PNone)
              (dict_get md (lit "title") (py_or id (PStr (lit "Titolo Sconosciuto"))))
              (dict_get md (lit "thumbnail_url") PNone)
              (dict_get md (lit "duration_sec") (PInt 0))
              (dict_get md (lit "is_local") (PBool false))
              (dict_get md (lit "webpage_url") PNone)) as (Fu & Fl & _ & _ & Fw).
  fold t0 in Fu, Fl, Fw. rewrite Fu in Hut, Es. rewrite Fl in Hnl. rewrite Fw, Hnl in Hwn.
  cbn [andb] in Hwn.
  split.
  - unfold startswith in Es. destruct (dict_get md (lit "url") PNone);
      now inversion Es.
  - exists md, id. split; [reflexivity|]. split; [|split; [|exact Hnl]].
    + unfold str_or_false, startswith in *. cbn in Hut, Es |- *.
      match goal with |- context [truthy ?u] => destruct u end;
        simpl in *; try discriminate; rewrite Hut; reflexivity.
    + apply is_none_true. exact Hwn.
Qed.

Lemma backfill_returns (t : Track) :
  truthy (webpage_url t) = true \/ str_or_false (url t) = true
  \/ truthy (is_local t) = true ->
  exists t', backfill_webpage_url t = Returned t'.
Proof.
  unfold backfill_webpage_url. intros H.
  destruct (truthy (is_local t) && _); [eauto|].
  destruct (negb (truthy (is_local t)) && is_none (webpage_url t) && truthy (url t)) eqn:C;
    [|eauto].
  apply andb_true_iff in C. destruct C as [C Hu].
  apply andb_true_iff in C. destruct C as [Hl Hn].
  apply negb_true_iff in Hl. apply is_none_true in Hn.
  destruct H as [H|[H|H]].
  - rewrite Hn in H. discriminate.
  - unfold str_or_false in H.
    destruct (url t); try (rewrite Hu in H; discriminate H). cbn. eauto.
  - congruence.
Qed.

(** The track [Track.from_dict] builds before its final step. *)
Lemma from_dict_steps (data : pyval) (md : list (text * pyval)) (id : pyval) :
  isinstance_dict_str_list data = true ->
  migration data = Some (md, id) ->
  exists t1,
    from_dict data = backfill_webpage_url t1
    /\ duration_sec t1 = dict_get md (lit "duration_sec") (PInt 0)
    /\ webpage_url t1
       = (if truthy (dict_get md (lit "is_local") (PBool false))
             && (is_none (dict_get md (lit "webpage_url") PNone)
                 || negb (truthy (dict_get md (lit "webpage_url") PNone)))
          then dict_get md (lit "url") PNone
          else dict_get md (lit "webpage_url") PNone)
    /\ ((url t1 = dict_get md (lit "url") PNone
         /\ is_local t1 = dict_get md (lit "is_local") (PBool false))
        \/ (is_local t1 = PBool true
            /\ truthy (dict_get md (lit "url") PNone) = true
            /\ (url t1 = dict_get md (lit "url") PNone \/ exists s, url t1 = PStr s))).
Proof.
  intros Hi Hm. unfold from_dict. rewrite Hi, Hm. cbv zeta. cbn [negb].
  set (t0 := Track_init _ _ _ _ _ _).
  exists (infer_local md (fallback_title (improve_title id t0))).
  split; [reflexivity|].
  destruct (Track_init_fields (dict_get md (lit "url") PNone)
              (dict_get md (lit "title") (py_or id (PStr (lit "Titolo Sconosciuto"))))
              (dict_get md (lit "thumbnail_url") PNone)
              (dict_get md (lit "duration_sec") (PInt 0))
              (dict_get md (lit "is_local") (PBool false))
              (dict_get md (lit "webpage_url") PNone)) as (Fu & Fl & Fd & _ & Fw).
  fold t0 in Fu, Fl, Fd, Fw.
  destruct (improve_title_keeps id t0) as (Hu1 & Hw1 & Hl1 & Hd1).
  destruct (fallback_title_keeps (improve_title id t0)) as (Hu2 & Hw2 & Hl2 & Hd2).
  destruct (title_infer_local md (fallback_title (improve_title id t0))) as (_ & Hw3 & Hd3).
  split; [congruence|]. split; [congruence|].
  destruct (infer_local_cases md (fallback_title (improve_title id t0)))
    as [[Hu Hl]|(Hl & Hu & Hr)].
  - left. split; congruence.
  - right. split; [exact Hl|]. split; [congruence|].
    destruct Hr as [Hr|Hr]; [left; congruence|right; exact Hr].
Qed.

(** X4.  A legacy record that is a plain string always converts: the
    result has a title, the string is its page URL, and the identifier
    history and favourites compare ([webpage_url or url]) is that string. *)
Theorem from_dict_of_string (s : text) :
  exists t,
    from_dict (PStr s) = Returned t
    /\ webpage_url t = PStr s
    /\ identifier_of t = PStr s
    /\ truthy (title t) = true.
Proof.
  destruct (from_dict_steps (PStr s)
              [ (lit "title", PStr s); (lit "webpage_url", PStr s); (lit "url", PStr s) ]
              (PStr s) eq_refl eq_refl) as (t1 & E & _ & Hw & Hcase).
  cbn in Hw, Hcase.
  assert (Hret : exists t, backfill_webpage_url t1 = Returned t).
  { apply backfill_returns. right.
    destruct Hcase as [[Hu Hl]|(Hl & _ & _)]; [left|right].
    - now rewrite Hu.
    - now rewrite Hl. }
  destruct Hret as (t & Hb). exists t. rewrite E. split; [exact Hb|].
  assert (Ht : truthy (title t) = true)
    by (apply (from_dict_title_truthy (PStr s)); now rewrite E).
  destruct (backfill_keeps t1 t Hb) as (_ & _ & Hu' & Hw').
  destruct s as [|c s].
  - destruct Hcase as [[Hu Hl]|(_ & Hut & _)]; [|discriminate].
    revert Hb. unfold backfill_webpage_url. rewrite Hl, Hw. cbn.
    intros [= <-]. unfold identifier_of, py_or. rewrite Hw, Hu. cbn. auto.
  - assert (Hwt : webpage_url t = PStr (c :: s)) by (rewrite Hw', Hw; now rewrite ?Hw).
    split; [exact Hwt|]. split; [|exact Ht].
    unfold identifier_of, py_or. now rewrite Hwt.
Qed.

(** X5.  Writing a track with [to_dict] and reading it back with
    [from_dict] keeps its page URL whenever it has one, and so keeps the
    identifier history and favourites compare; the conversion returns. *)
Theorem identifier_survives_to_dict (t : Track) :
  truthy (webpage_url t) = true ->
  exists t',
    from_dict (PDict (to_dict t)) = Returned t'
    /\ webpage_url t' = webpage_url t
    /\ identifier_of t' = identifier_of t.
Proof.
  intros Hw.
  destruct (from_dict_steps (PDict (to_dict t)) (to_dict t)
              (dict_get (to_dict t) (lit "webpage_url")
                 (dict_get (to_dict t) (lit "url") PNone)) eq_refl eq_refl)
    as (t1 & E & _ & Hw1 & _).
  cbn in Hw1. rewrite Hw in Hw1. rewrite orb_false_r in Hw1.
  assert (Hn : is_none (webpage_url t) = false)
    by (destruct (webpage_url t); [discriminate Hw|reflexivity..]).
  rewrite Hn, andb_false_r in Hw1.
  assert (Hw1t : truthy (webpage_url t1) = true) by now rewrite Hw1.
  destruct (backfill_returns t1 (or_introl Hw1t)) as (t' & Hb).
  destruct (backfill_keeps t1 t' Hb) as (_ & _ & _ & Hk).
  exists t'. rewrite E. split; [exact Hb|].
  assert (Hwt : webpage_url t' = webpage_url t) by (rewrite Hk; auto).
  split; [exact Hwt|].
  unfold identifier_of, py_or. now rewrite Hwt, Hw.
Qed.

(** X6.  Durations through the migration: in the positional list format a
    null duration becomes 0; in the mapping format the stored value is
    kept as it is, a null included, and 0 stands in only for an absent
    key. *)
Theorem from_dict_duration (data : pyval) (t : Track) :
  from_dict data = Returned t ->
  match data with
  | PList (_ :: _ :: _ :: d3 :: _ :: _) =>
      duration_sec t = (if is_none d3 then PInt 0 else d3)
  | PDict migrated_data =>
      duration_sec t = dict_get migrated_data (lit "duration_sec") (PInt 0)
  | _ => True
  end.
Proof.
  intros H.
  destruct data as [| | | |l|d]; try exact I.
  - destruct l as [|a [|b [|c [|d3 [|e rest]]]]]; try exact I.
    assert (Hm : migration (PList (a :: b :: c :: d3 :: e :: rest))
                 = Some ([ (lit "url", a); (lit "title", b); (lit "thumbnail_url", c);
                           (lit "duration_sec", if negb (is_none d3) then d3 else PInt 0);
                           (lit "webpage_url", e) ], e)).
    { unfold migration.
      assert (Hl : (5 <=? len (a :: b :: c :: d3 :: e :: rest)) = true)
        by (apply Z.leb_le; unfold len; cbn [List.length]; lia).
      now rewrite Hl. }
    destruct (from_dict_steps (PList (a :: b :: c :: d3 :: e :: rest)) _ _ eq_refl Hm)
      as (t1 & E & Hd & _).
    rewrite E in H. destruct (backfill_keeps t1 t H) as (_ & Hdt & _).
    rewrite Hdt, Hd. cbn. now destruct (is_none d3).
  - destruct (from_dict_steps (PDict d) d _ eq_refl eq_refl) as (t1 & E & Hd & _).
    rewrite E in H. destruct (backfill_keeps t1 t H) as (_ & Hdt & _).
    now rewrite Hdt, Hd.
Qed.

End MigrationProperties.

(** ** Saving and loading *)



(** ** Previous track, status and the routes *)

Section RouteProperties.
Context {V : Vlc} {K : Controls V}.
Variable int_of_str : text -> option Z.

Lemma play_previous_track_target (g : Globals) :
  current_media_type g = MT_playlist ->
  current_playlist g <> [] ->
  _play_previous_track g =
  _play_track_at_index
    (if current_track_index g - 1 <? 0
     then len (current_playlist g) - 1 else current_track_index g - 1) g.
Proof.
  intros Hm Hne. unfold _play_previous_track. run_monad. rewrite Hm. cbn.
  destruct (current_playlist g) as [|t l] eqn:Hl; [contradiction|].
  assert (Hlen : 0 < len (t :: l)) by (unfold len; cbn [List.length]; lia).
  destruct (current_track_index g - 1 <? 0) eqn:E.
  - destruct (len (t :: l) - 1 =? -1) eqn:E1; [apply Z.eqb_eq in E1; lia|reflexivity].
  - apply Z.ltb_ge in E.
    destruct (current_track_index g - 1 =? -1) eqn:E1;
      [apply Z.eqb_eq in E1; lia|reflexivity].
Qed.


(** X9.  Next then previous: in playlist mode with the current index on a
    track of the playlist, when play-next succeeds and the play-previous
    that follows succeeds, the current index is back where it was. *)
Theorem play_next_then_previous (from_event : bool) (g g1 g2 : Globals) :
  current_media_type g = MT_playlist ->
  0 <= current_track_index g < len (current_playlist g) ->
  _play_next_track from_event g = (Returned true, g1) ->
  _play_previous_track g1 = (Returned true, g2) ->
  current_track_index g2 = current_track_index g
  /\ current_playlist g2 = current_playlist g
  /\ current_media_type g2 = MT_playlist
  /\ is_playing g2 = true.
Proof.
  intros Hm Hi Hnext Hprev.
  assert (Hne : current_playlist g <> []).
  { intros E. rewrite E in Hi. cbn in Hi. lia. }
  rewrite (play_next_track_target from_event g Hm Hne) in Hnext.
  set (n := len (current_playlist g)) in *.
  set (t1 := if n <=? current_track_index g + 1 then 0 else current_track_index g + 1) in *.
  assert (Ht1 : 0 <= t1 < n /\ (t1 = 0 -> current_track_index g = n - 1)
                /\ (t1 <> 0 -> t1 = current_track_index g + 1)).
  { unfold t1. destruct (n <=? _) eqn:E.
    - apply Z.leb_le in E. lia.
    - apply Z.leb_gt in E. lia. }
  destruct (play_track_at_index_spec t1 g) as (b & g1' & E & Hl & _ & Hp1 & Hcase).
  rewrite Hnext in E. injection E as <- <-.
  destruct (player g) as [p|]; [|destruct Hcase; discriminate].
  destruct Hcase as (Hm1 & _ & Hpl1 & Hidx1).
  assert (Hb1 : in_bounds t1 g = true).
  { apply andb_true_iff. split; [apply Z.leb_le|apply Z.ltb_lt]; fold n; lia. }
  rewrite Hb1 in Hidx1.
  assert (Hne1 : current_playlist g1 <> []) by now rewrite Hl.
  rewrite (play_previous_track_target g1 Hm1 Hne1) in Hprev.
  rewrite Hl, Hidx1 in Hprev. fold n in Hprev.
  set (t2 := if t1 - 1 <? 0 then n - 1 else t1 - 1) in *.
  assert (Ht2 : t2 = current_track_index g).
  { unfold t2. destruct (t1 - 1 <? 0) eqn:E.
    - apply Z.ltb_lt in E. lia.
    - apply Z.ltb_ge in E. lia. }
  destruct (play_track_at_index_spec t2 g1) as (b & g2' & E & Hl2 & _ & Hp2 & Hcase2).
  rewrite Hprev in E. injection E as <- <-.
  destruct (player g1) as [p1|]; [|now elim Hpl1].
  destruct Hcase2 as (Hm2 & _ & _ & Hidx2).
  assert (Hb2 : in_bounds t2 g1 = true).
  { unfold in_bounds. rewrite Hl. fold n.
    apply andb_true_iff. split; [apply Z.leb_le|apply Z.ltb_lt]; lia. }
  rewrite Hb2 in Hidx2.
  repeat split; congruence.
Qed.

(** The state a status read leaves, and the fields it copies from it. *)
Lemma status_effect (g : Globals) :
  snd (_get_player_status g)
  = match player g with
    | Some p => if is_playing g && negb (vlc_is_playing p)
                then set_is_playing false g else g
    | None => g
    end
  /\ forall st, fst (_get_player_status g) = Returned st ->
       status_is_playing st = is_playing (snd (_get_player_status g))
       /\ playlist_length st = len (current_playlist g)
       /\ volume st = current_volume g.
Proof.
  unfold _get_player_status. run_monad.
  destruct (player g) as [p|] eqn:Hp.
  - destruct (is_playing g && negb (vlc_is_playing p)); cbn;
      repeat match goal with
             | |- context [if ?c then _ else _] => destruct c; cbn
             | |- context [match ?c with Returned _ => _ | Raised _ => _ end] =>
                 destruct c; cbn
             | |- context [match ?c with Some _ => _ | None => _ end] =>
                 destruct c; cbn
             end;
      (split; [reflexivity|]); intros st [= <-]; cbn; auto.
  - cbn.
    repeat match goal with
           | |- context [if ?c then _ else _] => destruct c; cbn
           | |- context [match ?c with Returned _ => _ | Raised _ => _ end] =>
               destruct c; cbn
           | |- context [match ?c with Some _ => _ | None => _ end] =>
               destruct c; cbn
           end;
      (split; [reflexivity|]); intros st [= <-]; cbn; auto.
Qed.

(** X10.  Reading the status only reconciles: it changes nothing in the
    state but [is_playing], which it clears when the engine is not
    playing; so after a status read with an engine, [is_playing] is true
    only if the engine is playing; and the [is_playing], [volume] and
    [playlist_length] it reports are those of the state it leaves. *)
Theorem status_reconciles (g : Globals) :
  snd (_get_player_status g)
  = match player g with
    | Some p => if is_playing g && negb (vlc_is_playing p)
                then set_is_playing false g else g
    | None => g
    end
  /\ (forall p, player g = Some p ->
        is_playing (snd (_get_player_status g)) = true -> vlc_is_playing p = true)
  /\ (forall st, fst (_get_player_status g) = Returned st ->
        status_is_playing st = is_playing (snd (_get_player_status g))
        /\ playlist_length st = len (current_playlist g)
        /\ volume st = current_volume g).
Proof.
  destruct (status_effect g) as [Hs Hst]. split; [exact Hs|]. split; [|exact Hst].
  intros p Hp. rewrite Hs, Hp.
  destruct (is_playing g) eqn:Hpl; destruct (vlc_is_playing p) eqn:Hv; cbn; congruence.
Qed.

(** X11.  The index the status reports is never out of range: it is -1, or
    an index of the playlist whose length the same status reports, and
    then the media type reported is "playlist" and the current track is
    the [to_dict] of the track at that index. *)
Theorem status_index_in_range (g : Globals) (st : Status) :
  fst (_get_player_status g) = Returned st ->
  status_current_track_index st = -1
  \/ (0 <= status_current_track_index st < playlist_length st
      /\ media_type st = MT_playlist
      /\ status_current_track_index st = current_track_index g
      /\ exists t, nth_error (current_playlist g) (Z.to_nat (current_track_index g)) = Some t
                   /\ current_track st = Some (to_dict t)).
Proof.
  unfold _get_player_status. run_monad.
  destruct (MediaType_eqb (current_media_type g) MT_webradio
            && truthy (current_radio_info g)) eqn:Hr.
  - destruct (player g) as [p|]; [destruct (is_playing g && negb (vlc_is_playing p))|];
      cbn; rewrite Hr;
      repeat match goal with
             | |- context [match ?c with Returned _ => _ | Raised _ => _ end] =>
                 destruct c; cbn
             end; intros [= <-]; auto.
  - destruct (MediaType_eqb (current_media_type g) MT_playlist
              && (0 <=? current_track_index g)
              && (current_track_index g <? len (current_playlist g))) eqn:Hp.
    + apply andb_true_iff in Hp as Hp'. destruct Hp' as [Hp' H1].
      apply andb_true_iff in Hp'. destruct Hp' as [_ H0].
      apply Z.leb_le in H0. apply Z.ltb_lt in H1.
      destruct (index_in_bounds (current_playlist g) _ (conj H0 H1)) as (t & Ht & Hn).
      destruct (player g) as [p|] eqn:Hpl;
        [destruct (is_playing g && negb (vlc_is_playing p))|];
        cbn; rewrite Hr, Hp, Ht, ?Hpl; cbn; rewrite ?Hpl;
        repeat match goal with
               | |- context [if ?c then _ else _] => destruct c; cbn
               | |- context [match ?c with Returned _ => _ | Raised _ => _ end] =>
                   destruct c; cbn
               | |- context [match ?c with Some _ => _ | None => _ end] =>
                   destruct c; cbn
               end; intros [= <-]; cbn; right; repeat split; eauto.
    + destruct (player g) as [p|]; [destruct (is_playing g && negb (vlc_is_playing p))|];
        cbn; rewrite Hr, Hp; cbn; intros [= <-]; auto.
Qed.

(** The status read never raises [ValueError]. *)
Lemma status_not_ValueError (g : Globals) :
  fst (_get_player_status g) <> Raised ValueError.
Proof.
  unfold _get_player_status. run_monad.
  destruct (player g) as [p|];
    [destruct (is_playing g && negb (vlc_is_playing p))|]; cbn;
    repeat match goal with
           | |- context [if ?c then _ else _] => destruct c; cbn
           | |- context [match ?c with Some _ => _ | None => _ end] =>
               destruct c; cbn
           end;
    unfold py_get, Py.index, py_mul;
    repeat match goal with
           | |- context [if ?c then _ else _] => destruct c; cbn
           | |- context [match ?c with Some _ => _ | None => _ end] =>
               destruct c; cbn
           | |- context [match ?c with PNone => _ | _ => _ end] =>
               destruct c; cbn
           end; discriminate.
Qed.

(** What the status read leaves of the state. *)
Lemma status_frame (g : Globals) :
  current_volume (snd (_get_player_status g)) = current_volume g
  /\ current_playlist (snd (_get_player_status g)) = current_playlist g
  /\ current_track_index (snd (_get_player_status g)) = current_track_index g
  /\ current_media_type (snd (_get_player_status g)) = current_media_type g
  /\ current_radio_info (snd (_get_player_status g)) = current_radio_info g
  /\ player (snd (_get_player_status g)) = player g
  /\ (is_playing g = false -> snd (_get_player_status g) = g).
Proof.
  destruct (status_effect g) as (Hs & _). rewrite Hs.
  destruct (player g) as [p|] eqn:Hp; [|now rewrite ?Hp].
  destruct (is_playing g) eqn:Hi; destruct (negb (vlc_is_playing p)); cbn;
    rewrite ?Hp; repeat split; auto; discriminate.
Qed.

(** What [jsonify(_get_player_status())] answers. *)
Lemma status_response_spec (g : Globals) :
  snd (status_response g) = snd (_get_player_status g)
  /\ match fst (status_response g) with
     | Returned (Json st) => fst (_get_player_status g) = Returned st
     | Returned (ErrorJson _ _) => False
     | Raised e => e <> ValueError
     end.
Proof.
  pose proof (status_not_ValueError g) as Hv.
  unfold status_response. run_monad.
  destruct (_get_player_status g) as [[st|e] g1]; cbn in *.
  - auto.
  - split; [reflexivity|]. congruence.
Qed.

(** The three ways the volume route ends: a 400 with the state as it was,
    an exception with the state as it was, or the status read after the
    volume was stored. *)
Lemma player_volume_cases (data : pyval) (g : Globals) :
  (exists e, player_volume int_of_str data g = (Returned (ErrorJson e 400), g))
  \/ (exists e, player_volume int_of_str data g = (Raised e, g))
  \/ (exists raw vol,
        item_of (lit "volume") data = Returned raw
        /\ py_int int_of_str raw = Returned vol
        /\ 0 <= vol <= 200
        /\ player_volume int_of_str data g = status_response (volume_set vol g)).
Proof.
  unfold player_volume, except_ValueError, or_status.
  destruct (truthy data).
  2:{ left. eexists. reflexivity. }
  destruct (py_in (lit "volume") data) as [[|]|e0].
  2:{ left. eexists. reflexivity. }
  2:{ right. left. eexists. reflexivity. }
  destruct (item_of (lit "volume") data) as [raw|e0] eqn:Hitem.
  2:{ destruct e0;
      first [ left; eexists; reflexivity | right; left; eexists; reflexivity ]. }
  destruct (py_int int_of_str raw) as [vol|e0] eqn:Hint.
  2:{ destruct e0;
      first [ left; eexists; run_monad; rewrite Hint; reflexivity
            | right; left; eexists; run_monad; rewrite Hint; reflexivity ]. }
  destruct ((0 <=? vol) && (vol <=? 200)) eqn:Hrange.
  2:{ left. eexists. run_monad. rewrite Hint. cbn [fst snd]. rewrite Hrange. reflexivity. }
  right. right. exists raw, vol.
  apply andb_true_iff in Hrange as Hr. destruct Hr as [H0 H1].
  apply Z.leb_le in H0. apply Z.leb_le in H1.
  split; [reflexivity|]. split; [exact Hint|]. split; [lia|].
  unfold volume_set, or_status. run_monad. rewrite Hint. cbn [fst snd]. rewrite Hrange.
  destruct (player g) as [p|] eqn:Hp; cbn [fst snd]; rewrite ?Hp; cbn [fst snd];
    destruct (status_response _) as [[r|e] g1]; reflexivity.
Qed.

(** X12.  The volume route: every request it rejects (no volume given, a
    volume that is no integer, a volume outside 0..200) is answered with
    code 400 and leaves the state as it was; a request it accepts stores
    the integer given, which lies in 0..200, and the status it answers
    reports that volume.  So a stored volume within 0..200 stays within
    0..200. *)
Theorem player_volume_validates (data : pyval) (g : Globals) :
  (forall e c, fst (player_volume int_of_str data g) = Returned (ErrorJson e c) ->
     c = 400 /\ snd (player_volume int_of_str data g) = g)
  /\ (forall st, fst (player_volume int_of_str data g) = Returned (Json st) ->
        0 <= volume st <= 200
        /\ current_volume (snd (player_volume int_of_str data g)) = volume st
        /\ exists raw, item_of (lit "volume") data = Returned raw
                       /\ py_int int_of_str raw = Returned (volume st))
  /\ (0 <= current_volume g <= 200 ->
      0 <= current_volume (snd (player_volume int_of_str data g)) <= 200).
Proof.
  destruct (player_volume_cases data g)
    as [(e0 & E)|[(e0 & E)|(raw & vol & Hitem & Hint & Hr & E)]]; rewrite E.
  - cbn [fst snd]. split; [intros e c H; inversion H; auto|].
    split; [discriminate|auto].
  - cbn [fst snd]. split; [discriminate|]. split; [discriminate|auto].
  - destruct (status_response_spec (volume_set vol g)) as (Hs & Hf).
    destruct (status_frame (volume_set vol g)) as (Hvol & _).
    destruct (status_effect (volume_set vol g)) as (_ & Hst).
    assert (Hv : current_volume (volume_set vol g) = vol) by reflexivity.
    rewrite Hs, Hvol, Hv.
    destruct (fst (status_response (volume_set vol g))) as [[st|e c]|e].
    + destruct (Hst st Hf) as (_ & _ & Hvs). rewrite Hv in Hvs.
      split; [discriminate|]. split; [|intros _; lia].
      intros st' [= <-]. rewrite Hvs. split; [lia|]. split; [reflexivity|].
      exists raw. auto.
    + contradiction.
    + split; [discriminate|]. split; [discriminate|]. intros _. lia.
Qed.


Lemma play_then_status (i : Z) (g : Globals) :
  exists b g1,
    _play_track_at_index i g = (Returned b, g1)
    /\ (_play_track_at_index i ;; status_response) g = status_response g1.
Proof.
  destruct (play_track_at_index_spec i g) as (b & g1 & E & _).
  exists b, g1. split; [exact E|]. run_monad. now rewrite E.
Qed.

(** A status answer is never an error body. *)
Lemma status_response_not_error (g : Globals) (e : api_error) (c : Z) :
  fst (status_response g) <> Returned (ErrorJson e c).
Proof.
  destruct (status_response_spec g) as (_ & H). intros E. now rewrite E in H.
Qed.


(** Zero is an index of a non-empty playlist. *)
Lemma in_bounds_first (g : Globals) :
  current_playlist g <> [] -> in_bounds 0 g = true.
Proof.
  intros Hne. unfold in_bounds, len. destruct (current_playlist g); [contradiction|].
  cbn [List.length]. apply andb_true_iff.
  split; [apply Z.leb_le|apply Z.ltb_lt]; lia.
Qed.

(** Play-at-index of an index of the playlist, with an engine: the
    playlist and the volume are kept, and the index becomes the one asked
    for when the call succeeds and stays otherwise. *)
Lemma play_valid_index (i : Z) (g : Globals) (p : player_t) :
  player g = Some p ->
  in_bounds i g = true ->
  exists b g1,
    _play_track_at_index i g = (Returned b, g1)
    /\ current_playlist g1 = current_playlist g
    /\ current_volume g1 = current_volume g
    /\ is_playing g1 = b
    /\ current_track_index g1 = (if b then i else current_track_index g).
Proof.
  intros Hp Hb.
  destruct (play_track_at_index_spec i g) as (b & g1 & E & Hl & Hv & Hpl & Hcase).
  rewrite Hp, Hb in Hcase. destruct Hcase as (_ & _ & _ & Hi).
  exists b, g1. auto.
Qed.

(** A play request without index, with an engine: it is a status read in
    a state with the playlist and the volume of before, and with the index
    of before, or with index 0 where the index of before was not one of
    the playlist. *)
Lemma play_without_index_spec (g : Globals) (p : player_t) :
  player g = Some p ->
  exists g',
    play_without_index g = status_response g'
    /\ current_playlist g' = current_playlist g
    /\ current_volume g' = current_volume g
    /\ (current_track_index g' = current_track_index g
        \/ (current_track_index g' = 0
            /\ in_bounds (current_track_index g) g = false
            /\ current_playlist g <> []
            /\ is_playing g' = true)).
Proof.
  intros Hp. unfold play_without_index. run_monad. rewrite Hp.
  assert (Hrestart :
    exists g',
      (if in_bounds (current_track_index g) g
       then _play_track_at_index (current_track_index g) ;; ret tt
       else match current_playlist g with
            | [] => ret tt
            | _ :: _ => _play_track_at_index 0 ;; ret tt
            end) g = (Returned tt, g')
      /\ current_playlist g' = current_playlist g
      /\ current_volume g' = current_volume g
      /\ (current_track_index g' = current_track_index g
          \/ (current_track_index g' = 0
              /\ in_bounds (current_track_index g) g = false
              /\ current_playlist g <> []
              /\ is_playing g' = true))).
  { destruct (in_bounds (current_track_index g) g) eqn:Hb.
    - destruct (play_valid_index _ g p Hp Hb) as (b & g1 & E & Hl & Hv & _ & Hi).
      exists g1. run_monad. rewrite E. split; [reflexivity|].
      split; [exact Hl|]. split; [exact Hv|]. left. now destruct b.
    - destruct (current_playlist g) as [|t l] eqn:Hl0.
      + exists g. rewrite Hl0. auto.
      + assert (Hne : current_playlist g <> []) by (rewrite Hl0; discriminate).
        destruct (play_valid_index 0 g p Hp (in_bounds_first g Hne))
          as (b & g1 & E & Hl & Hv & Hpl & Hi).
        exists g1. run_monad. rewrite E. split; [reflexivity|].
        rewrite Hl0 in Hl. split; [exact Hl|]. split; [exact Hv|].
        destruct b; [right|left; exact Hi]. repeat split; auto. discriminate. }
  destruct Hrestart as (g' & E & Hfacts). revert E. run_monad. intros E.
  destruct (vlc_get_state p) eqn:Hs; cbn [fst snd];
    try (exists g; split; [reflexivity|]; now auto);
    try (exists g'; rewrite E; split; [reflexivity|exact Hfacts]).
  destruct (vlc_play p) as [r p'] eqn:Er.
  exists (set_is_playing true (set_player (Some p') g)).
  rewrite Hp, Er. cbn. auto.
Qed.


(** X15.  A play request without index never leaves the playlist: the
    playlist is kept, and the current index is kept, or becomes 0 where it
    was not an index of the (non-empty) playlist.  So a valid current
    index is never changed by it, whatever the engine's state. *)
Theorem player_play_keeps_current_track (data : pyval) (g : Globals) :
  truthy data = false \/ py_in (lit "track_index") data = Returned false ->
  current_playlist (snd (player_play int_of_str data g)) = current_playlist g
  /\ (current_track_index (snd (player_play int_of_str data g)) = current_track_index g
      \/ (current_track_index (snd (player_play int_of_str data g)) = 0
          /\ in_bounds (current_track_index g) g = false
          /\ current_playlist g <> []))
  /\ (in_bounds (current_track_index g) g = true ->
      current_track_index (snd (player_play int_of_str data g)) = current_track_index g).
Proof.
  intros Hno.
  assert (E : player_play int_of_str data g = play_without_index g).
  { unfold player_play. destruct Hno as [H|H].
    - rewrite H. reflexivity.
    - rewrite H. destruct (truthy data); reflexivity. }
  rewrite E.
  assert (H : current_playlist (snd (play_without_index g)) = current_playlist g
              /\ (current_track_index (snd (play_without_index g)) = current_track_index g
                  \/ (current_track_index (snd (play_without_index g)) = 0
                      /\ in_bounds (current_track_index g) g = false
                      /\ current_playlist g <> []))).
  { destruct (player g) as [p|] eqn:Hp.
    - destruct (play_without_index_spec g p Hp) as (g' & E' & Hl & _ & Hi). rewrite E'.
      destruct (status_response_spec g') as (Hs & _). rewrite Hs.
      destruct (status_frame g') as (_ & Hl' & Hi' & _). rewrite Hl', Hi'.
      split; [exact Hl|]. destruct Hi as [Hi|(Hi & Hb & Hne & _)]; auto.
    - unfold play_without_index. run_monad. rewrite Hp. cbn. auto. }
  destruct H as (Hl & Hi). split; [exact Hl|]. split; [exact Hi|].
  intros Hb. destruct Hi as [Hi|(_ & Hb' & _)]; [exact Hi|congruence].
Qed.

(** X16.  Pause: the request never fails with an error body and keeps the
    playlist, the current index, the volume, the media type and the radio
    descriptor; where the engine can pause, [is_playing] is false
    afterwards and the status answered reports it so; where there is no
    engine or it cannot pause, the request is a plain status read. *)
Theorem player_pause_effect (g : Globals) :
  (forall r, fst (player_pause g) = Returned r -> exists st, r = Json st)
  /\ current_playlist (snd (player_pause g)) = current_playlist g
  /\ current_track_index (snd (player_pause g)) = current_track_index g
  /\ current_volume (snd (player_pause g)) = current_volume g
  /\ current_media_type (snd (player_pause g)) = current_media_type g
  /\ current_radio_info (snd (player_pause g)) = current_radio_info g
  /\ (forall p, player g = Some p -> vlc_can_pause p = true ->
        player (snd (player_pause g)) = Some (vlc_pause p)
        /\ is_playing (snd (player_pause g)) = false
        /\ forall st, fst (player_pause g) = Returned (Json st) ->
             status_is_playing st = false)
  /\ (match player g with Some p => vlc_can_pause p = false | None => True end ->
      player_pause g = status_response g).
Proof.
  assert (Hshape : forall g' r, fst (status_response g') = Returned r ->
                                exists st, r = Json st).
  { intros g' r H. destruct r as [st|e c]; [eauto|].
    now apply status_response_not_error in H. }
  assert (Hframe : forall g',
            current_playlist (snd (status_response g')) = current_playlist g'
            /\ current_track_index (snd (status_response g')) = current_track_index g'
            /\ current_volume (snd (status_response g')) = current_volume g'
            /\ current_media_type (snd (status_response g')) = current_media_type g'
            /\ current_radio_info (snd (status_response g')) = current_radio_info g').
  { intros g'. destruct (status_response_spec g') as (Hs & _). rewrite Hs.
    destruct (status_frame g') as (? & ? & ? & ? & ? & _). auto. }
  unfold player_pause. run_monad.
  destruct (player g) as [p|] eqn:Hp.
  2:{ cbn [fst snd]. destruct (Hframe g) as (? & ? & ? & ? & ?).
      repeat (split; [solve [eauto]|]). split; [discriminate|reflexivity]. }
  destruct (vlc_can_pause p) eqn:Hc.
  2:{ cbn [fst snd]. destruct (Hframe g) as (? & ? & ? & ? & ?).
      repeat (split; [solve [eauto]|]).
      split; [intros p' [= <-]; congruence|reflexivity]. }
  cbn [fst snd]. rewrite Hp. cbn [fst snd].
  set (g' := set_is_playing false (set_player (Some (vlc_pause p)) g)).
  destruct (Hframe g') as (? & ? & ? & ? & ?).
  repeat (split; [solve [eauto]|]).
  split; [|discriminate].
  intros p' [= <-] _.
  destruct (status_response_spec g') as (Hs & Hf).
  destruct (status_frame g') as (_ & _ & _ & _ & _ & _ & Hsame).
  rewrite Hs, (Hsame eq_refl). split; [reflexivity|]. split; [reflexivity|].
  intros st Hst. rewrite Hst in Hf.
  destruct (status_effect g') as (_ & Hfields).
  destruct (Hfields st Hf) as (Hi & _). rewrite Hi, (Hsame eq_refl). reflexivity.
Qed.

(** The status read in web radio mode with a station dict: it returns,
    and reports the station. *)
Lemma status_of_station (g : Globals) (name url_stream : text) :
  current_media_type g = MT_webradio ->
  current_radio_info g = station name url_stream ->
  exists st,
    fst (_get_player_status g) = Returned st
    /\ media_type st = MT_webradio
    /\ station_info st = Some (station name url_stream)
    /\ status_current_track_index st = -1
    /\ duration_ms st = PInt 0
    /\ exists rest, current_track st = Some ((lit "title", PStr name) :: rest).
Proof.
  intros Hm Hr. unfold _get_player_status. run_monad.
  destruct (player g) as [p|];
    [destruct (is_playing g && negb (vlc_is_playing p))|];
    cbn; rewrite Hm, Hr; cbn; eexists; repeat split; eauto;
    cbn; eexists; reflexivity.
Qed.

(** The [try] block of the web radio route followed by the end of the
    route, with an engine: it never raises; the playlist and the volume
    are kept. *)
Lemma start_stream_spec (name url_stream : text) (g : Globals) (p : player_t) :
  player g = Some p ->
  exists r g1,
    (returned <- start_stream name url_stream ;; or_status returned) g = (Returned r, g1)
    /\ current_playlist g1 = current_playlist g
    /\ current_volume g1 = current_volume g
    /\ match r with
       | Json st =>
           media_type st = MT_webradio
           /\ status_current_track_index st = -1
           /\ duration_ms st = PInt 0
           /\ station_info st = Some (station name url_stream)
           /\ current_media_type g1 = MT_webradio
           /\ current_track_index g1 = -1
           /\ current_radio_info g1 = station name url_stream
       | ErrorJson e c =>
           c = 500
           /\ ((e = MediaNotCreated
                /\ is_playing g1 = is_playing g
                /\ current_media_type g1 = current_media_type g
                /\ current_radio_info g1 = current_radio_info g
                /\ current_track_index g1 = current_track_index g)
               \/ ((e = WebRadioPlayFailed \/ e = WebRadioException)
                   /\ is_playing g1 = false
                   /\ current_media_type g1 = MT_none
                   /\ current_radio_info g1 = PNone
                   /\ current_track_index g1 = current_track_index g))
       end.
Proof.
  intros Hp. unfold start_stream, radio_started, radio_failed, or_status. run_monad.
  destruct (vlc_media_new_with url_stream (lit ":network-caching=3000"))
    as [[media|]|e0]; cbn [fst snd].
  - rewrite Hp.
    destruct (vlc_play (vlc_set_media media p)) as [res p2] eqn:Er.
    cbn [player set_player]. rewrite Er.
    destruct (res =? -1).
    + eexists _, _. split; [reflexivity|]. cbn. repeat split; auto.
      right. repeat split; auto.
    + cbn [fst snd].
      match goal with
      | |- context [status_response ?g2] =>
          destruct (status_of_station g2 name url_stream eq_refl eq_refl)
            as (st & Est & Hmt & Hst & Hi & Hd & _);
          destruct (status_frame g2) as (Hv' & Hl' & Hi' & Hm' & Hr' & _);
          unfold status_response; run_monad;
          destruct (_get_player_status g2) as [[st'|e1] g3] eqn:E2;
          cbn [fst snd] in *; [|discriminate]
      end.
      injection Est as ->. eexists _, _. split; [reflexivity|].
      rewrite Hv', Hl', Hi', Hm', Hr'. cbn. repeat split; auto.
  - eexists _, _. split; [reflexivity|]. cbn. repeat split; auto.
    left. repeat split; auto.
  - eexists _, _. split; [reflexivity|]. cbn. repeat split; auto.
    right. repeat split; auto.
Qed.


(** X18.  The errors of the web radio route: a 400 (name or URL missing,
    or blank once stripped) and the 500 for a missing engine leave the
    state as it was, and the request is validated before the engine is
    looked at; the other 500s arise only with an engine. *)
Theorem add_webradio_rejected (data : pyval) (g : Globals) (e : api_error) (c : Z) :
  fst (add_webradio data g) = Returned (ErrorJson e c) ->
  (c = 400 /\ (e = MissingNameOrUrl \/ e = EmptyNameOrUrl)
   /\ snd (add_webradio data g) = g)
  \/ (c = 500 /\ e = PlayerNotInitialized /\ player g = None
      /\ snd (add_webradio data g) = g)
  \/ (c = 500 /\ (e = MediaNotCreated \/ e = WebRadioPlayFailed \/ e = WebRadioException)
      /\ player g <> None).
Proof.
  unfold add_webradio.
  cbv beta delta [bind ret lift get player_stop player_call] iota.
  destruct (truthy data); cbn [negb];
    [|intros [= <- <-]; left; auto].
  destruct (py_in (lit "name") data) as [[|]|e0]; cbn [negb];
    [|intros [= <- <-]; left; auto|discriminate].
  destruct (py_in (lit "url_stream") data) as [[|]|e0]; cbn [negb];
    [|intros [= <- <-]; left; auto|discriminate].
  destruct (item_of (lit "name") data) as [raw_name|e0]; [|discriminate].
  destruct (py_strip raw_name) as [name|e0]; [|discriminate].
  destruct (item_of (lit "url_stream") data) as [raw_url|e0]; [|discriminate].
  destruct (py_strip raw_url) as [url_stream|e0]; [|discriminate].
  destruct name as [|c0 name'];
    [destruct url_stream; intros [= <- <-]; left; auto|].
  destruct url_stream as [|c1 url']; [intros [= <- <-]; left; auto|].
  destruct (player g) as [p|] eqn:Hp;
    [|intros [= <- <-]; right; left; auto].
  intros H. right. right.
  assert (E : exists p0 r g1,
             (returned <- start_stream (c0 :: name') (c1 :: url') ;; or_status returned)
               (set_player (Some p0) g) = (Returned r, g1)
             /\ fst (Returned r, g1) = Returned (ErrorJson e c)
             /\ match r with
                | Json _ => True
                | ErrorJson e' c' =>
                    c' = 500
                    /\ (e' = MediaNotCreated \/ e' = WebRadioPlayFailed
                        \/ e' = WebRadioException)
                end).
  { destruct (vlc_is_playing p || State_eqb (vlc_get_state p) Paused).
    - rewrite Hp in H.
      destruct (start_stream_spec (c0 :: name') (c1 :: url')
                  (set_player (Some (vlc_stop p)) g) (vlc_stop p) eq_refl)
        as (r & g1 & E1 & _ & _ & Hcase).
      exists (vlc_stop p), r, g1. split; [exact E1|].
      revert E1. cbv beta delta [bind] iota. intros E1. rewrite E1 in H.
      split; [exact H|]. destruct r; [exact I|].
      destruct Hcase as (? & [(? & _)|([?|?] & _)]); auto.
    - assert (Eg : set_player (Some p) g = g) by (destruct g; cbn in *; now subst).
      destruct (start_stream_spec (c0 :: name') (c1 :: url') g p Hp)
        as (r & g1 & E1 & _ & _ & Hcase).
      exists p, r, g1. rewrite Eg. split; [exact E1|].
      revert E1. cbv beta delta [bind] iota. intros E1. rewrite E1 in H.
      split; [exact H|]. destruct r; [exact I|].
      destruct Hcase as (? & [(? & _)|([?|?] & _)]); auto. }
  destruct E as (p0 & r & g1 & _ & Hr & Hcase). cbn [fst] in Hr.
  injection Hr as ->. destruct Hcase as (-> & He).
  split; [reflexivity|]. split; [exact He|discriminate].
Qed.

End RouteProperties.

(** ** The playlist of the window *)



(** X19.  Play-previous of the window on a non-empty playlist, with a
    current index not beyond the length of the playlist: it does nothing
    but emit the play signal, once, for the index before the current one,
    and for index 0 from the first track or from no selection (it does not
    wrap to the last track); the index emitted is an index of the
    playlist. *)
Theorem play_previous_restarts_first_track (play_track_slot : Z -> M Jukebox unit)
    (j : Jukebox) :
  playlist j <> [] ->
  current_idx j <= len (playlist j) ->
  play_previous play_track_slot j
  = emit_play_track play_track_slot (Z.max 0 (current_idx j - 1)) j
  /\ 0 <= Z.max 0 (current_idx j - 1) < len (playlist j)
  /\ (current_idx j <= 0 -> Z.max 0 (current_idx j - 1) = 0)
  /\ (0 < current_idx j -> Z.max 0 (current_idx j - 1) = current_idx j - 1).
Proof.
  intros Hne Hidx.
  assert (Hlen : 0 < len (playlist j)).
  { unfold len. destruct (playlist j); [contradiction|]. cbn [List.length]. lia. }
  split; [|lia].
  unfold play_previous. cbv beta delta [bind get] iota.
  destruct (playlist j) as [|t l] eqn:Hp; [contradiction|].
  destruct (current_idx j <=? 0) eqn:E.
  - apply Z.leb_le in E. apply Z.ltb_lt in Hlen. rewrite Hlen.
    now replace (Z.max 0 (current_idx j - 1)) with 0 by lia.
  - apply Z.leb_gt in E.
    now replace (Z.max 0 (current_idx j - 1)) with (current_idx j - 1) by lia.
Qed.







(** X23.  The finalize hook of a search worker always clears the
    search-in-progress flag and runs once per delivery; it forgets the
    registered worker only when that worker is the sender, and leaves the
    playlist, the selection, the history and the favourites alone. *)
Theorem search_worker_finished_effect (sender : option nat) (j : Jukebox) :
  is_searching (snd (_on_search_worker_finished sender j)) = false
  /\ yt_search_worker (snd (_on_search_worker_finished sender j))
     = match sender, yt_search_worker j with
       | Some s, Some w => if Nat.eqb (wid w) s then None else Some w
       | _, registered => registered
       end
  /\ hook_runs (snd (_on_search_worker_finished sender j)) = S (hook_runs j)
  /\ playlist (snd (_on_search_worker_finished sender j)) = playlist j
  /\ current_idx (snd (_on_search_worker_finished sender j)) = current_idx j
  /\ history (snd (_on_search_worker_finished sender j)) = history j
  /\ favorites (snd (_on_search_worker_finished sender j)) = favorites j.
Proof.
  unfold _on_search_worker_finished, _hide_loading, hook_runs. run_search.
  cbn [yt_search_worker set_is_searching set_effects loading_movie query_lbl fst snd].
  destruct sender as [s|]; destruct (yt_search_worker j) as [w|] eqn:Hw; cbn;
    rewrite ?Hw; cbn;
    repeat match goal with
           | |- context [Nat.eqb ?a ?b] => destruct (Nat.eqb a b) eqn:?; cbn; rewrite ?Hw; cbn
           | |- context [match loading_movie j with Some _ => _ | None => _ end] =>
               destruct (loading_movie j); cbn; rewrite ?Hw; cbn
           | |- context [if ?c then _ else _] => destruct c eqn:?; cbn; rewrite ?Hw; cbn
           end;
    rewrite ?filter_app, ?length_app; cbn; repeat split; try reflexivity; try lia;
    try congruence.
Qed.

(** ** The properties on the example collaborators *)

Lemma load_json_tolerant_witness :
  @load_json (Examples.platform (Some (Returned (lit "{not json"))))
    (lit "playlist.json")
    (Some (@from_dict (Examples.platform (Some (Returned (lit "{not json"))))))
  = Returned [].
Proof.
  refine (proj1 (@load_json_tolerant
                   (Examples.platform (Some (Returned (lit "{not json"))))
                   (lit "playlist.json")
                   (Some (@from_dict (Examples.platform (Some (Returned (lit "{not json"))))))
                   (Some (Returned (lit "{not json"))) _) _).
  - reflexivity.
  - unfold absent_empty_or_malformed. simpl.
    right. exists JSONDecodeError. reflexivity.
Defined.

(** C8 as stated fails: the existence test comes before the [try], and on
    a name it raises on (here one of 300 characters, longer than a file
    name may be) the load raises instead of returning the empty list. *)
Lemma load_json_tolerant_counterexample :
  len Examples.long_name = 300
  /\ @load_json (Examples.platform None) Examples.long_name None = Raised OSError
  /\ ~ exists l, @load_json (Examples.platform None) Examples.long_name None = Returned l.
Proof.
  split; [reflexivity|].
  split; [vm_compute; reflexivity|].
  intros (l & H). vm_compute in H. discriminate.
Qed.

(** A list [[null]] loads through [Track.from_dict] to the dummy track,
    which has a title and is therefore kept; through a normalizer that
    gives a track without title and locator, the element is skipped. *)
Example load_json_keeps_dummy_track :
  @load_json (Examples.platform (Some (Returned (lit "[null]"))))
    (lit "playlist.json")
    (Some (@from_dict (Examples.platform (Some (Returned (lit "[null]"))))))
  = Returned [OTrack invalid_track]
  /\ @load_json (Examples.platform (Some (Returned (lit "[null]"))))
       (lit "playlist.json")
       (Some (fun item_data =>
                Returned (Track_init item_data item_data PNone (PInt 0) (PBool false) PNone)))
     = Returned [].
Proof. split; vm_compute; reflexivity. Qed.


Lemma from_dict_title_never_empty_witness :
  exists t,
    @from_dict (Examples.platform None) (PDict [ (lit "url", PStr (lit "http://a")) ])
    = Returned t
    /\ truthy (title t) = true
    /\ truthy (py_or (title t) (url t)) = true.
Proof.
  eexists. split; [vm_compute; reflexivity|].
  apply (@from_dict_title_never_empty (Examples.platform None)
           (PDict [ (lit "url", PStr (lit "http://a")) ])).
  vm_compute. reflexivity.
Defined.

Lemma load_json_from_dict_keeps_all_witness :
  @load_json (Examples.platform (Some (Returned (lit " [null] ")))) (lit "playlist.json")
    (Some (@from_dict (Examples.platform (Some (Returned (lit " [null] "))))))
  = Returned
      (map OTrack
         (flat_map
            (fun item_data =>
               match @from_dict (Examples.platform (Some (Returned (lit " [null] "))))
                       item_data with
               | Returned item => [item]
               | Raised _ => []
               end) [PNone])).
Proof.
  apply (@load_json_from_dict_keeps_all
           (Examples.platform (Some (Returned (lit " [null] "))))
           (lit "playlist.json") (lit " [null] ") [PNone]).
  - reflexivity.
  - vm_compute. discriminate.
  - vm_compute. reflexivity.
Defined.

Lemma from_dict_raises_only_on_odd_locator_witness :
  @from_dict (Examples.platform None) (PDict [ (lit "url", PInt 5) ]) = Raised AttributeError
  /\ AttributeError = AttributeError
  /\ exists migrated_data identifier_url,
       migration (PDict [ (lit "url", PInt 5) ]) = Some (migrated_data, identifier_url)
       /\ str_or_false (dict_get migrated_data (lit "url") PNone) = false
       /\ dict_get migrated_data (lit "webpage_url") PNone = PNone
       /\ truthy (dict_get migrated_data (lit "is_local") (PBool false)) = false.
Proof.
  split; [vm_compute; reflexivity|].
  apply (@from_dict_raises_only_on_odd_locator (Examples.platform None)
           (PDict [ (lit "url", PInt 5) ]) AttributeError).
  vm_compute. reflexivity.
Defined.

Lemma identifier_survives_to_dict_witness :
  exists t',
    @from_dict (Examples.platform None) (PDict (to_dict Examples.song_a)) = Returned t'
    /\ webpage_url t' = webpage_url Examples.song_a
    /\ identifier_of t' = identifier_of Examples.song_a.
Proof.
  apply (@identifier_survives_to_dict (Examples.platform None) Examples.song_a).
  reflexivity.
Defined.

Lemma from_dict_duration_witness :
  exists t,
    @from_dict (Examples.platform None)
      (PList [ PStr (lit "http://stream"); PStr (lit "A"); PNone; PNone;
               PStr (lit "http://a") ]) = Returned t
    /\ duration_sec t = PInt 0.
Proof.
  eexists. split; [vm_compute; reflexivity|].
  apply (@from_dict_duration (Examples.platform None)
           (PList [ PStr (lit "http://stream"); PStr (lit "A"); PNone; PNone;
                    PStr (lit "http://a") ])).
  vm_compute. reflexivity.
Defined.



(** On [A, B, C] with A playing, play-previous wraps to C, the last
    track. *)
Example play_previous_on_first_of_abc :
  exists g1,
    @_play_previous_track Examples.engine Examples.abc_on_a = (Returned true, g1)
    /\ current_track_index g1 = 2
    /\ current_media_type Examples.abc_on_a = MT_playlist
    /\ current_track_index Examples.abc_on_a = 0.
Proof. eexists. split; [vm_compute; reflexivity|]. repeat split. Qed.

Lemma play_next_then_previous_witness :
  current_track_index
    (snd (@_play_previous_track Examples.engine
            (snd (@_play_next_track Examples.engine false Examples.abc_on_c))))
  = current_track_index Examples.abc_on_c.
Proof.
  refine (proj1 (@play_next_then_previous Examples.engine false Examples.abc_on_c
                   (snd (@_play_next_track Examples.engine false Examples.abc_on_c))
                   (snd (@_play_previous_track Examples.engine
                           (snd (@_play_next_track Examples.engine false
                                   Examples.abc_on_c))))
                   _ _ _ _)).
  - reflexivity.
  - vm_compute. split; first [discriminate|reflexivity].
  - vm_compute. reflexivity.
  - vm_compute. reflexivity.
Defined.

Lemma status_index_in_range_witness :
  exists st,
    fst (@_get_player_status Examples.engine Examples.abc_on_c) = Returned st
    /\ (status_current_track_index st = -1
        \/ (0 <= status_current_track_index st < playlist_length st
            /\ media_type st = MT_playlist
            /\ status_current_track_index st = current_track_index Examples.abc_on_c
            /\ exists t,
                 nth_error (current_playlist Examples.abc_on_c)
                   (Z.to_nat (current_track_index Examples.abc_on_c)) = Some t
                 /\ current_track st = Some (to_dict t))).
Proof.
  eexists. split; [vm_compute; reflexivity|].
  apply (@status_index_in_range Examples.engine Examples.abc_on_c).
  vm_compute. reflexivity.
Defined.



Lemma player_play_keeps_current_track_witness :
  current_playlist
    (snd (@player_play Examples.engine Examples.int_of_digits PNone Examples.abc_on_c))
  = current_playlist Examples.abc_on_c.
Proof.
  refine (proj1 (@player_play_keeps_current_track Examples.engine Examples.int_of_digits
                   PNone Examples.abc_on_c _)).
  left. reflexivity.
Defined.


Lemma add_webradio_rejected_witness :
  (400 = 400 /\ (EmptyNameOrUrl = MissingNameOrUrl \/ EmptyNameOrUrl = EmptyNameOrUrl)
   /\ snd (@add_webradio Examples.engine Examples.controls
             (PDict [ (lit "name", PStr (lit "  ")); (lit "url_stream", PStr (lit "http://r")) ])
             Examples.no_engine)
      = Examples.no_engine)
  \/ (400 = 500 /\ EmptyNameOrUrl = PlayerNotInitialized
      /\ player Examples.no_engine = None
      /\ snd (@add_webradio Examples.engine Examples.controls
                (PDict [ (lit "name", PStr (lit "  "));
                         (lit "url_stream", PStr (lit "http://r")) ])
                Examples.no_engine)
         = Examples.no_engine)
  \/ (400 = 500
      /\ (EmptyNameOrUrl = MediaNotCreated \/ EmptyNameOrUrl = WebRadioPlayFailed
          \/ EmptyNameOrUrl = WebRadioException)
      /\ player Examples.no_engine <> None).
Proof.
  apply (@add_webradio_rejected Examples.engine Examples.controls
           (PDict [ (lit "name", PStr (lit "  ")); (lit "url_stream", PStr (lit "http://r")) ])
           Examples.no_engine EmptyNameOrUrl 400).
  vm_compute. reflexivity.
Defined.

Lemma play_previous_restarts_first_track_witness :
  play_previous Examples.select_track
    (Examples.window [Examples.song_a; Examples.song_b] [] [] 0 None)
  = emit_play_track Examples.select_track
      (Z.max 0 (current_idx (Examples.window [Examples.song_a; Examples.song_b] [] [] 0 None)
                - 1))
      (Examples.window [Examples.song_a; Examples.song_b] [] [] 0 None).
Proof.
  refine (proj1 (play_previous_restarts_first_track Examples.select_track
                   (Examples.window [Examples.song_a; Examples.song_b] [] [] 0 None) _ _)).
  - discriminate.
  - vm_compute. discriminate.
Defined.


(** Removing B from [A, B, C] while C is selected leaves [A, C] with C
    selected, saved after the refresh; with a text as the duration of A
    the refresh raises and nothing is saved. *)
Example remove_before_current :
  let j := Examples.window [Examples.song_a; Examples.song_b; Examples.song_c] [] [] 2
             (Some Examples.song_c) in
  let after := _remove_track_from_playlist Examples.select_track true 1 j in
  fst after = Returned tt
  /\ playlist (snd after) = [Examples.song_a; Examples.song_c]
  /\ current_idx (snd after) = 1
  /\ effects (snd after)
     = [RefreshLists;
        SaveJson (lit "playlist.json") [to_dict Examples.song_a; to_dict Examples.song_c]]
  /\ let odd := Track_init (PStr (lit "http://a")) (PStr (lit "A")) PNone
                  (PStr (lit "3:00")) (PBool false) (PStr (lit "http://a")) in
     let j' := Examples.window [odd; Examples.song_b; Examples.song_c] [] [] 2
                 (Some Examples.song_c) in
     let after' := _remove_track_from_playlist Examples.select_track true 1 j' in
     fst after' = Raised TypeError
     /\ playlist (snd after') = [odd; Examples.song_c]
     /\ effects (snd after') = [RefreshLists].
Proof. vm_compute. repeat split. Qed.
